(** * HomeHero server: booking, review and catalogue rules

    A shallow embedding of the Express handlers of the HomeHero backend
    (index.js and server.js) over a model of the two MongoDB collections
    they use, [services] and [bookings].

    Conventions of the embedding.
    - A JavaScript value is a [value]; [undefined] is [None] in
      [option value].  Numbers are binary64 floats, as in JavaScript.
    - A service document is a finite map from field names to values; an
      embedded document keeps the order of its fields.
    - A booking is a record: the handlers use [userEmail], [serviceId] and
      [status] in queries, and these are strings, [None] when the field is
      absent.  Bookings that hold other values there are outside the
      embedding, and so are request bodies that are arrays and query
      strings that give a parameter more than once.
    - The database answers every command, and one request runs at a time.
    - What the handlers take from their environment is a [Runtime]: the
      ObjectId constructor, jsonwebtoken, the shape of the driver's results,
      the string and number conversions of JavaScript, what the server
      refuses to store, and how it rewrites an embedded path. *)

From Stdlib Require Import ZArith NArith Bool Ascii.
From Stdlib Require Import Floats.PrimFloat Floats.FloatOps Floats.SpecFloat.
From Stdlib Require Import Numbers.Cyclic.Int63.Uint63.
From Stdlib Require Import Sorting.Sorted.
From stdpp Require Import gmap strings list fin_maps.

(** ** JavaScript and BSON values *)

(** An ObjectId is twelve bytes, read here as a number. *)
Definition ObjectId := N.

(** A [Date], in milliseconds since the epoch. *)
Definition Date := Z.

#[warnings="-register-all"]
Inductive value : Type :=
| VNull
| VBool (b : bool)
| VNum (x : float)
| VStr (s : string)
| VId (o : ObjectId)
| VDate (t : Date)
| VArr (l : list value)
| VObj (o : list (string * value)).
Arguments VNum x%_float.
Arguments VId o%_N.
Arguments VDate t%_Z.

Abbreviation doc := (gmap string value).

(** Primitive values, the results of ToPrimitive. *)
Inductive prim : Type :=
| PUndefined
| PNull
| PBool (b : bool)
| PNum (x : float)
| PStr (s : string).

(** The decoded payload of a token; the handlers read only [email]. *)
Record Claims := { email : option string }.

(** The query object that GET /services builds for [find]. *)
Record Query := {
  q_category : option string;
  q_price : option (option float * option float);
  q_search : option string }.

(** What the handlers import. *)
Class Runtime := {
  (** [new ObjectId(s)]: [None] when the constructor throws. *)
  new_ObjectId : string -> option ObjectId;
  (** [jwt.verify(token, secret, callback)]: [None] is [err], [Some c] is
      [decoded].  The token is [undefined] when the header has one word. *)
  jwt_verify : option string -> option Claims;
  (** Whether [findOneAndUpdate] answers with a ModifyResult
      [{ value, ok, lastErrorObject }] (true) or with the document (false);
      this depends on the version of the driver. *)
  includeResultMetadata : bool;
  (** [parseFloat(x)]. *)
  parseFloat : option value -> float;
  (** [parseInt(s)]: [None] when the result is NaN or infinite. *)
  parseInt : string -> option Z;
  (** ToString and ToNumber between numbers and strings. *)
  number_to_string : float -> string;
  string_to_number : string -> float;
  (** ToPrimitive on an object (array, document, ObjectId, Date): [None]
      when neither [valueOf] nor [toString] gives a primitive. *)
  object_to_primitive : value -> option prim;
  (** The documents that satisfy the query of GET /services; [None] when
      the server refuses the query (a [$regex] that does not parse). *)
  query_matches : Query -> option (doc -> bool);
  (** Whether the server takes a document as it is written: its size, its
      depth and the names of its fields are within what the driver and the
      server accept. *)
  storable : doc -> bool;
  (** [$set] on a path that is not the plain name of a field (it has a
      dot, or its name starts with a dollar sign): the new value of the
      field that the first component names, from the old one; [None] when
      the server refuses the update. *)
  set_embedded : list string -> value -> option value -> option value }.

Module Js.

(** [a === b].  Arrays, documents, ObjectIds and Dates are objects: two
    of them read from different sources are never the same object. *)
Definition strict_eq (a b : option value) : bool :=
  match a, b with
  | None, None => true
  | Some VNull, Some VNull => true
  | Some (VBool x), Some (VBool y) => Bool.eqb x y
  | Some (VNum x), Some (VNum y) => PrimFloat.eqb x y
  | Some (VStr x), Some (VStr y) => String.eqb x y
  | _, _ => false
  end.

(** ToBoolean. *)
Definition truthy (a : option value) : bool :=
  match a with
  | None | Some VNull => false
  | Some (VBool b) => b
  | Some (VNum x) => negb (PrimFloat.eqb x 0 || PrimFloat.is_nan x)
  | Some (VStr s) => negb (String.eqb s "")
  | Some _ => true
  end.

(** [v.k] for a property name [k] that no built-in prototype defines:
    the outer [None] is the TypeError of reading a property of [null] or
    [undefined]. *)
Definition get (v : option value) (k : string) : option (option value) :=
  match v with
  | None | Some VNull => None
  | Some (VObj o) => Some (snd <$> List.find (fun kv => String.eqb (fst kv) k) o)
  | Some _ => Some None
  end.

(** The number of a JavaScript array length. *)
Definition of_nat (n : nat) : float :=
  PrimFloat.of_uint63 (Uint63.of_Z (Z.of_nat n)).

Section Coercions.
Context `{Runtime}.

Definition ToPrimitive (a : option value) : option prim :=
  match a with
  | None => Some PUndefined
  | Some VNull => Some PNull
  | Some (VBool b) => Some (PBool b)
  | Some (VNum x) => Some (PNum x)
  | Some (VStr s) => Some (PStr s)
  | Some v => object_to_primitive v
  end.

Definition ToNumber (p : prim) : float :=
  match p with
  | PUndefined => PrimFloat.nan
  | PNull => 0%float
  | PBool b => if b then 1%float else 0%float
  | PNum x => x
  | PStr s => string_to_number s
  end.

Definition ToString (p : prim) : string :=
  match p with
  | PUndefined => "undefined"
  | PNull => "null"
  | PBool b => if b then "true" else "false"
  | PNum x => number_to_string x
  | PStr s => s
  end.

(** [a + b] on primitives: concatenation when one is a string. *)
Definition add (a b : prim) : prim :=
  match a, b with
  | PStr s, _ => PStr (s ++ ToString b)
  | _, PStr s => PStr (ToString a ++ s)
  | _, _ => PNum (ToNumber a + ToNumber b)
  end.

(** [a / b]. *)
Definition div (a b : prim) : float := (ToNumber a / ToNumber b)%float.

(** [a > 0]. *)
Definition gt0 (a : prim) : bool := PrimFloat.ltb 0 (ToNumber a).

End Coercions.

End Js.

(** A value written to the database: [undefined] is stored as [null]. *)
Definition bson_of (a : option value) : value := default VNull a.

(** ** The order of BSON values *)

Module Bson.

(** Numbers by their numeric value, NaN below all of them. *)
Definition sf_compare (x y : spec_float) : comparison :=
  match SFcompare x y with
  | Some c => c
  | None =>
      match x, y with
      | S754_nan, S754_nan => Eq
      | S754_nan, _ => Lt
      | _, _ => Gt
      end
  end.

Definition num_compare (x y : float) : comparison :=
  sf_compare (Prim2SF x) (Prim2SF y).

Definition num_leb (x y : float) : bool :=
  if num_compare x y is Gt then false else true.

(** The comparison order of BSON types: null, numbers, strings, documents,
    arrays, ObjectIds, booleans, dates. *)
Definition rank (a : value) : nat :=
  match a with
  | VNull => 5
  | VNum _ => 10
  | VStr _ => 15
  | VObj _ => 20
  | VArr _ => 25
  | VId _ => 35
  | VBool _ => 40
  | VDate _ => 45
  end.

(** The first comparison that is not [Eq]. *)
Definition lex (c d : comparison) : comparison :=
  match c with Eq => d | _ => c end.

(** Two lists pair by pair: the first pair that differs decides, and the
    list that ends first is the smaller. *)
Definition pairs {A} (cmp : A -> A -> comparison)
    : list A -> list A -> comparison :=
  fix go (x y : list A) : comparison :=
    match x, y with
    | [], [] => Eq
    | [], _ :: _ => Lt
    | _ :: _, [] => Gt
    | u :: x, v :: y => lex (cmp u v) (go x y)
    end.

(** Values of one type by their value.  Arrays member by member;
    documents field by field in the order they have: the types of the two
    values, then the names of the two fields, then the values. *)
Fixpoint compare (a b : value) {struct a} : comparison :=
  lex (Nat.compare (rank a) (rank b))
    match a, b with
    | VNum x, VNum y => num_compare x y
    | VStr x, VStr y => String.compare x y
    | VId x, VId y => N.compare x y
    | VBool x, VBool y =>
        match x, y with
        | false, true => Lt
        | true, false => Gt
        | _, _ => Eq
        end
    | VDate x, VDate y => Z.compare x y
    | VArr x, VArr y => pairs compare x y
    | VObj x, VObj y =>
        pairs (fun ju kv =>
                 lex (Nat.compare (rank (snd ju)) (rank (snd kv)))
                   (lex (String.compare (fst ju) (fst kv))
                      (compare (snd ju) (snd kv)))) x y
    | _, _ => Eq
    end.

(** Equality of two values, as the unique index on [_id] has it. *)
Definition eqb (a b : value) : bool :=
  if compare a b is Eq then true else false.

(** The smallest ([pick] is [Lt]) or largest ([pick] is [Gt]) value of a
    list. *)
Definition extreme (pick : comparison) (l : list value) : option value :=
  foldr (fun v best =>
           match best with
           | None => Some v
           | Some w =>
               match compare v w, pick with
               | Lt, Lt | Gt, Gt => Some v
               | _, _ => Some w
               end
           end) None l.

(** The key of a document in a sort on a field with the value [a]: a
    missing field counts as [null], an array counts as its smallest value
    in an ascending sort and as its largest in a descending one, and the
    array without values has the key [None], which is below all others. *)
Definition sort_key (pick : comparison) (a : option value) : option value :=
  match a with
  | None => Some VNull
  | Some (VArr l) => extreme pick l
  | Some v => Some v
  end.

Definition key_compare (a b : option value) : comparison :=
  match a, b with
  | None, None => Eq
  | None, Some _ => Lt
  | Some _, None => Gt
  | Some a, Some b => compare a b
  end.

Definition key_leb (a b : option value) : bool :=
  if key_compare a b is Gt then false else true.

End Bson.

(** ** Responses *)

Inductive Body : Type :=
| Failure (message : string)          (* { error: true, message } *)
| Success (message : string)          (* { success: true, message } *)
| Documents (l : list doc)
| InsertOneResult (insertedId : value)
| UpdateResult (matchedCount : nat)
| DeleteResult (deletedCount : nat).

Record Response := { statusCode : nat; body : Body }.

(** [res.send(x)] answers with status 200. *)
Definition ok (b : Body) : Response := {| statusCode := 200; body := b |}.

(** [res.status(c).send({ error: true, message })]. *)
Definition failure (c : nat) (message : string) : Response :=
  {| statusCode := c; body := Failure message |}.

(** The error classes of the interface, by HTTP status. *)
Inductive ErrorKind : Type :=
| Unauthorized | Forbidden | NotFound | InvalidOperation | Internal.

Definition error_kind (r : Response) : option ErrorKind :=
  match statusCode r with
  | 401 => Some Unauthorized
  | 403 => Some Forbidden
  | 404 => Some NotFound
  | 400 => Some InvalidOperation
  | 500 => Some Internal
  | _ => None
  end.

(** ** The database *)

Record Booking := {
  b_id : option value;            (* _id *)
  userEmail : option string;
  serviceId : option string;
  status : option string;
  createdAt : option Date;
  b_fields : doc }.               (* the other fields of the body *)

(** The write commands the server has acknowledged, oldest first. *)
Inductive WriteOp : Type :=
| InsertService (d : doc)
| SetService (o : ObjectId) (set : doc)
| PushReview (o : ObjectId) (review : value)
| DeleteService (o : ObjectId)
| InsertBooking (b : Booking)
| DeleteBooking (o : ObjectId)
| DeleteBookings (sid : string).

Record Store := {
  services : list doc;
  bookings : list Booking;
  journal : list WriteOp }.

(** ** Handlers as store transformers

    A handler body runs until it answers ([Sent], an early
    [return res.status(..).send(..)]), throws ([Thrown], caught by the
    handler's [catch]) or yields a value to the rest of the body. *)

Inductive outcome (A : Type) : Type :=
| Next (a : A)
| Sent (r : Response)
| Thrown.
Arguments Next {A} a.
Arguments Sent {A} r.
Arguments Thrown {A}.

Definition Async (A : Type) : Type := Store -> outcome A * Store.

#[export] Instance Async_ret : MRet Async := fun A a st => (Next a, st).

#[export] Instance Async_bind : MBind Async := fun A B k m st =>
  match m st with
  | (Next a, st') => k a st'
  | (Sent r, st') => (Sent r, st')
  | (Thrown, st') => (Thrown, st')
  end.

Definition send {A} (r : Response) : Async A := fun st => (Sent r, st).
Definition throw {A} : Async A := fun st => (Thrown, st).

(** A value that throws when absent. *)
Definition must {A} (a : option A) : Async A :=
  match a with Some x => mret x | None => throw end.

(** [try { body } catch (error) { res.status(500).send(..) }]. *)
Definition try_catch (h : Async Response) (message : string)
    (st : Store) : Response * Store :=
  match h st with
  | (Next r, st') | (Sent r, st') => (r, st')
  | (Thrown, st') => (failure 500 message, st')
  end.

(** ** Collections *)

Fixpoint update_first {A} (p : A -> bool) (f : A -> A) (l : list A) : list A :=
  match l with
  | [] => []
  | x :: l => if p x then f x :: l else x :: update_first p f l
  end.

Fixpoint remove_first {A} (p : A -> bool) (l : list A) : list A :=
  match l with
  | [] => []
  | x :: l => if p x then l else x :: remove_first p l
  end.

(** The filter [{ _id: o }]. *)
Definition has_id (o : ObjectId) (d : doc) : bool :=
  match d !! "_id" with
  | Some (VId o') => N.eqb o o'
  | _ => false
  end.

Definition booking_has_id (o : ObjectId) (b : Booking) : bool :=
  match b_id b with
  | Some (VId o') => N.eqb o o'
  | _ => false
  end.

(** The [_id] of an inserted document: the driver gives the new ObjectId
    [fresh] to a document whose [_id] is absent or [null]. *)
Definition assigned_id (id : option value) (fresh : ObjectId) : value :=
  match id with
  | None | Some VNull => VId fresh
  | Some id => id
  end.

(** The unique index on [_id]: an insertion is refused when its [_id] is
    an array or a document of the collection has it. *)
Definition id_accepted (id : value) (ids : list (option value)) : bool :=
  match id with
  | VArr _ => false
  | _ =>
      negb (existsb (fun v => if v is Some v then Bson.eqb v id else false) ids)
  end.

(** What [findOneAndUpdate] resolves to. *)
Inductive ModifyResult : Type :=
| Document (d : option doc)
| Metadata (value : option doc).

(** *** The update operator [$set] *)

(** [s.split(c)]. *)
Fixpoint split_on (c : ascii) (s : string) : list string :=
  match s with
  | EmptyString => [EmptyString]
  | String a s' =>
      if Ascii.eqb a c then EmptyString :: split_on c s'
      else match split_on c s' with
           | w :: ws => String a w :: ws
           | [] => [String a EmptyString]
           end
  end.

(** The components of a field path. *)
Definition path_of (key : string) : list string := split_on "."%char key.

Fixpoint is_prefix (p q : list string) : bool :=
  match p, q with
  | [], _ => true
  | _ :: _, [] => false
  | a :: p, b :: q => String.eqb a b && is_prefix p q
  end.

(** Two paths of one update conflict when one leads through the other. *)
Definition conflict (p q : list string) : bool := is_prefix p q || is_prefix q p.

Fixpoint conflict_free (paths : list (list string)) : bool :=
  match paths with
  | [] => true
  | p :: paths => forallb (fun q => negb (conflict p q)) paths && conflict_free paths
  end.

(** The server parses an update before it looks for the document: no
    component of a path is empty, and no two paths conflict. *)
Definition well_formed (set : doc) : bool :=
  let paths := path_of <$> (map_to_list set).*1 in
  forallb (forallb (fun c => negb (String.eqb c ""))) paths && conflict_free paths.

(** A name that starts with a dollar sign. *)
Definition dollar (c : string) : bool :=
  match c with
  | String a _ => Ascii.eqb a "$"%char
  | EmptyString => false
  end.

Section SetOperator.
Context `{Runtime}.

(** One field of [$set].  The plain name of a field sets that field.  The
    [_id] is immutable: it is set to the value it has or the update is
    refused, and it has no embedded field (the [_id] of a document that
    the filter of the handlers finds is an ObjectId).  Any other path
    rewrites the field that its first component names, as the server
    does. *)
Definition set_field (key : string) (v : value) (d : doc) : option doc :=
  match path_of key with
  | [] => None
  | h :: rest =>
      let embedded :=
        new ← set_embedded (h :: rest) v (d !! h); Some (<[h := new]> d) in
      if String.eqb h "_id" then
        match rest, d !! "_id" with
        | [], Some id => if Bson.eqb v id then Some d else None
        | _, _ => None
        end
      else
        match rest with
        | [] => if dollar h then embedded else Some (<[h := v]> d)
        | _ :: _ => embedded
        end
  end.

(** [{ $set: set }] on the document [d], field by field: [None] when the
    update is refused. *)
Definition set_all (l : list (string * value)) (d : doc) : option doc :=
  foldr (fun kv d' => d' ≫= set_field kv.1 kv.2) (Some d) l.

Definition set_fields (set d : doc) : option doc :=
  if well_formed set then
    d' ← set_all (map_to_list set) d;
    if storable d' then Some d' else None
  else None.

End SetOperator.

Module servicesCollection.

Definition find (p : doc -> bool) : Async (list doc) :=
  fun st => (Next (List.filter p (services st)), st).

Definition findOne (o : ObjectId) : Async (option doc) :=
  fun st => (Next (List.find (has_id o) (services st)), st).

(** [$push: { reviews: review }] on a document: the field must be an
    array or absent. *)
Definition push_review (review : value) (d : doc) : option doc :=
  match d !! "reviews" with
  | None => Some (<["reviews" := VArr [review]]> d)
  | Some (VArr l) => Some (<["reviews" := VArr (l ++ [review])]> d)
  | Some _ => None
  end.

(** [deleteOne({ _id: o })]. *)
Definition deleteOne (o : ObjectId) : Async Body :=
  fun st =>
    (Next (DeleteResult (length (take 1 (List.filter (has_id o) (services st))))),
     {| services := remove_first (has_id o) (services st);
        bookings := bookings st;
        journal := journal st ++ [DeleteService o] |}).

Section Writes.
Context `{Runtime}.

(** [insertOne(d)]: the insertion throws when the document is refused. *)
Definition insertOne (d : doc) (fresh : ObjectId) : Async Body :=
  fun st =>
    let id := assigned_id (d !! "_id") fresh in
    let d' := <["_id" := id]> d in
    if id_accepted id ((.!! "_id") <$> services st) && storable d' then
      (Next (InsertOneResult id),
       {| services := services st ++ [d'];
          bookings := bookings st;
          journal := journal st ++ [InsertService d'] |})
    else (Thrown, st).

(** [updateOne({ _id: o }, { $set: set })]: the update throws when it is
    refused. *)
Definition updateOne (o : ObjectId) (set : doc) : Async Body :=
  fun st =>
    match List.find (has_id o) (services st) with
    | None =>
        if well_formed set then
          (Next (UpdateResult 0),
           {| services := services st;
              bookings := bookings st;
              journal := journal st ++ [SetService o set] |})
        else (Thrown, st)
    | Some d =>
        match set_fields set d with
        | None => (Thrown, st)
        | Some d' =>
            (Next (UpdateResult 1),
             {| services := update_first (has_id o) (fun _ => d') (services st);
                bookings := bookings st;
                journal := journal st ++ [SetService o set] |})
        end
    end.

(** [findOneAndUpdate({ _id: o }, { $push: { reviews: review } },
    { returnDocument: "after" })]. *)
Definition findOneAndUpdate (o : ObjectId) (review : value)
    : Async ModifyResult :=
  fun st =>
    let wrap d := if includeResultMetadata then Metadata d else Document d in
    match List.find (has_id o) (services st) with
    | None => (Next (wrap None), st)
    | Some d =>
        match push_review review d with
        | None => (Thrown, st)
        | Some d' =>
            if storable d' then
              (Next (wrap (Some d')),
               {| services := update_first (has_id o) (fun _ => d') (services st);
                  bookings := bookings st;
                  journal := journal st ++ [PushReview o review] |})
            else (Thrown, st)
        end
    end.

End Writes.

End servicesCollection.

(** A booking as the document that is stored. *)
Definition with_field (k : string) (v : option value) (d : doc) : doc :=
  match v with
  | Some v => <[k := v]> d
  | None => delete k d
  end.

Definition booking_doc (b : Booking) : doc :=
  with_field "_id" (b_id b)
    (with_field "userEmail" (VStr <$> userEmail b)
       (with_field "serviceId" (VStr <$> serviceId b)
          (with_field "status" (VStr <$> status b)
             (with_field "createdAt" (VDate <$> createdAt b) (b_fields b))))).

Module bookingsCollection.

Definition find (p : Booking -> bool) : Async (list Booking) :=
  fun st => (Next (List.filter p (bookings st)), st).

Definition findOne (p : Booking -> bool) : Async (option Booking) :=
  fun st => (Next (List.find p (bookings st)), st).

(** [deleteOne({ _id: o })]. *)
Definition deleteOne (o : ObjectId) : Async Body :=
  fun st =>
    (Next (DeleteResult
             (length (take 1 (List.filter (booking_has_id o) (bookings st))))),
     {| services := services st;
        bookings := remove_first (booking_has_id o) (bookings st);
        journal := journal st ++ [DeleteBooking o] |}).

Definition insertOne `{Runtime} (b : Booking) (fresh : ObjectId) : Async Body :=
  fun st =>
    let id := assigned_id (b_id b) fresh in
    let b' := {| b_id := Some id; userEmail := userEmail b;
                 serviceId := serviceId b; status := status b;
                 createdAt := createdAt b; b_fields := b_fields b |} in
    if id_accepted id (b_id <$> bookings st) && storable (booking_doc b') then
      (Next (InsertOneResult id),
       {| services := services st;
          bookings := bookings st ++ [b'];
          journal := journal st ++ [InsertBooking b'] |})
    else (Thrown, st).

(** [deleteMany({ serviceId: sid })]. *)
Definition deleteMany (sid : string) : Async Body :=
  fun st =>
    let hit (b : Booking) := bool_decide (serviceId b = Some sid) in
    (Next (DeleteResult (length (List.filter hit (bookings st)))),
     {| services := services st;
        bookings := List.filter (fun b => negb (hit b)) (bookings st);
        journal := journal st ++ [DeleteBookings sid] |}).

End bookingsCollection.

(** ** The handlers *)

(** A query-string or header value is truthy when present and not empty. *)
Definition given (s : option string) : bool := Js.truthy (VStr <$> s).

(** [cursor.sort]: insertion into a sorted prefix.  MongoDB leaves open
    the order of documents with equal keys; here they keep the order of the
    collection, and no property below depends on that. *)
Fixpoint insert_by (le : doc -> doc -> bool) (x : doc) (l : list doc) : list doc :=
  match l with
  | [] => [x]
  | y :: l' => if le x y then x :: y :: l' else y :: insert_by le x l'
  end.

Definition sort_by (le : doc -> doc -> bool) (l : list doc) : list doc :=
  foldr (insert_by le) [] l.

(** [{ field: 1 }] and [{ field: -1 }]. *)
Definition ascending (field : string) (a b : doc) : bool :=
  Bson.key_leb (Bson.sort_key Lt (a !! field)) (Bson.sort_key Lt (b !! field)).
Definition descending (field : string) (a b : doc) : bool :=
  Bson.key_leb (Bson.sort_key Gt (b !! field)) (Bson.sort_key Gt (a !! field)).

(** [req.query] of GET /services. *)
Record ListParams := {
  limit : option string;
  category : option string;
  minPrice : option string;
  maxPrice : option string;
  search : option string;
  sortBy : option string }.

(** The two files differ in how the review handler reads the result of
    [findOneAndUpdate]: index.js reads [updatedService.reviews], server.js
    reads [updatedService.value.reviews]. *)
Inductive SourceFile : Type := IndexJs | ServerJs.

Section Handlers.
Context `{Runtime}.

(** The JWT middleware: the decoded claims, or the answer it sends. *)
Definition verifyJWT (authorization : option string) : Claims + Response :=
  if negb (given authorization) then
    inr (failure 401 "Unauthorized access")
  else
    let token := split_on " "%char (default EmptyString authorization) !! 1 in
    match jwt_verify token with
    | None => inr (failure 403 "Forbidden access")
    | Some decoded => inl decoded
    end.

(** [app.method(path, verifyJWT, handler)]. *)
Definition protected (authorization : option string)
    (handler : Claims -> Store -> Response * Store) (st : Store)
    : Response * Store :=
  match verifyJWT authorization with
  | inl decoded => handler decoded st
  | inr r => (r, st)
  end.

(** *** GET /services *)

Definition build_query (p : ListParams) : Query :=
  {| q_category :=
       if given (category p) && negb (bool_decide (category p = Some "all"))
       then category p else None;
     q_price :=
       if given (minPrice p) || given (maxPrice p) then
         Some (if given (minPrice p)
               then Some (parseFloat (VStr <$> minPrice p)) else None,
               if given (maxPrice p)
               then Some (parseFloat (VStr <$> maxPrice p)) else None)
       else None;
     q_search := if given (search p) then search p else None |}.

Definition apply_sort (p : ListParams) (cursor : list doc) : list doc :=
  if bool_decide (sortBy p = Some "price-asc") then
    sort_by (ascending "price") cursor
  else if bool_decide (sortBy p = Some "price-desc") then
    sort_by (descending "price") cursor
  else if bool_decide (sortBy p = Some "rating") then
    sort_by (descending "averageRating") cursor
  else cursor.

(** [cursor.limit(parseInt(limit))]: zero is no limit, a negative number
    limits to its absolute value; the server refuses a limit that is not a
    number or does not fit 64 bits. *)
Definition apply_limit (p : ListParams) (cursor : list doc) : option (list doc) :=
  if given (limit p) then
    match parseInt (default EmptyString (limit p)) with
    | None => None
    | Some 0%Z => Some cursor
    | Some n =>
        if (Z.abs n <? 2 ^ 63)%Z then Some (take (Z.abs_nat n) cursor) else None
    end
  else Some cursor.

Definition get_services (p : ListParams) : Store -> Response * Store :=
  try_catch
    (matches ← must (query_matches (build_query p));
     cursor ← servicesCollection.find matches;
     services ← must (apply_limit p (apply_sort p cursor));
     mret (ok (Documents services)))
    "Failed to fetch services".

(** *** POST /services *)

Definition post_services (body : doc) (now : Date) (fresh : ObjectId)
    (decoded : Claims) : Store -> Response * Store :=
  try_catch
    (let service :=
       <["reviews" := VArr []]>
         (<["averageRating" := VNum 4.5%float]>
            (<["createdAt" := VDate now]> body)) in
     result ← servicesCollection.insertOne service fresh;
     mret (ok result))
    "Failed to add service".

(** The ownership test of PATCH and DELETE:
    [!service || service.providerEmail !== email]. *)
Definition not_owner (service : option doc) (email : option string) : bool :=
  match service with
  | None => true
  | Some service =>
      negb (Js.strict_eq (service !! "providerEmail") (VStr <$> email))
  end.

(** *** PATCH /services/:id, with [email] of the query string *)

Definition patch_services_id (id : string) (email : option string)
    (updateData : doc) (now : Date) (decoded : Claims)
    : Store -> Response * Store :=
  try_catch
    (o ← must (new_ObjectId id);
     service ← servicesCollection.findOne o;
     if not_owner service email then send (failure 403 "Forbidden access")
     else
       let updateData := <["updatedAt" := VDate now]> (delete "_id" updateData) in
       result ← servicesCollection.updateOne o updateData;
       mret (ok result))
    "Failed to update service".

(** *** DELETE /services/:id, with [email] of the query string *)

Definition delete_services_id (id : string) (email : option string)
    (decoded : Claims) : Store -> Response * Store :=
  try_catch
    (o ← must (new_ObjectId id);
     service ← servicesCollection.findOne o;
     if not_owner service email then send (failure 403 "Forbidden access")
     else
       _ ← bookingsCollection.deleteMany id;
       result ← servicesCollection.deleteOne o;
       mret (ok result))
    "Failed to delete service".

(** *** POST /bookings *)

(** [{ userEmail, serviceId, status: { $ne: "cancelled" } }]. *)
Definition active_booking (user sid : option string) (b : Booking) : bool :=
  bool_decide (userEmail b = user) && bool_decide (serviceId b = sid)
  && negb (bool_decide (status b = Some "cancelled")).

(** [new ObjectId(undefined)] is a new identifier, which no service has:
    the read of [service.providerEmail] then throws, as it does for an
    identifier that is not in the collection. *)
Definition post_bookings (booking : Booking) (now : Date) (fresh : ObjectId)
    (decoded : Claims) : Store -> Response * Store :=
  try_catch
    (sid ← must (serviceId booking);
     o ← must (new_ObjectId sid);
     service ← servicesCollection.findOne o;
     service ← must service;
     if Js.strict_eq (service !! "providerEmail") (VStr <$> userEmail booking)
     then send (failure 400 "You cannot book your own service")
     else
       existingBooking ← bookingsCollection.findOne
         (active_booking (userEmail booking) (serviceId booking));
       if existingBooking is Some _
       then send (failure 400 "You have already booked this service")
       else
         let booking :=
           {| b_id := b_id booking; userEmail := userEmail booking;
              serviceId := serviceId booking; status := Some "pending";
              createdAt := Some now; b_fields := b_fields booking |} in
         result ← bookingsCollection.insertOne booking fresh;
         mret (ok result))
    "Failed to create booking".

(** *** POST /services/:id/review *)

(** [{ userEmail, serviceId, status: { $in: ["completed", "pending"] } }]. *)
Definition qualifying_booking (user : option string) (sid : string)
    (b : Booking) : bool :=
  bool_decide (userEmail b = user) && bool_decide (serviceId b = Some sid)
  && (bool_decide (status b = Some "completed")
      || bool_decide (status b = Some "pending")).

(** [reviews.some((review) => review.userEmail === userEmail)], which
    stops at the first review that matches. *)
Fixpoint some_by (user : option value) (reviews : list value) : option bool :=
  match reviews with
  | [] => Some false
  | review :: reviews =>
      match Js.get (Some review) "userEmail" with
      | None => None
      | Some e => if Js.strict_eq e user then Some true else some_by user reviews
      end
  end.

(** [service.reviews?.some(..)]: [undefined] without a list, a TypeError
    when [reviews] is neither a list nor absent. *)
Definition hasReviewed (service : doc) (user : option string) : option bool :=
  match service !! "reviews" with
  | None | Some VNull => Some false
  | Some (VArr reviews) => some_by (VStr <$> user) reviews
  | Some _ => None
  end.

(** [reviews.reduce((sum, r) => sum + r.rating, sum)]. *)
Fixpoint reduce_rating (reviews : list value) (sum : prim) : option prim :=
  match reviews with
  | [] => Some sum
  | r :: reviews =>
      match Js.get (Some r) "rating" with
      | None => None
      | Some rating =>
          match Js.ToPrimitive rating with
          | None => None
          | Some rating => reduce_rating reviews (Js.add sum rating)
          end
      end
  end.

(** What the handler reads as the updated list of reviews. *)
Definition updated_reviews (file : SourceFile) (updatedService : ModifyResult)
    : option (option value) :=
  match file, updatedService with
  | IndexJs, Document d => d ← d; Some (d !! "reviews")
  | IndexJs, Metadata _ => Some None
  | ServerJs, Metadata value => d ← value; Some (d !! "reviews")
  | ServerJs, Document d => d ← d; Js.get (d !! "value") "reviews"
  end.

(** [if (reviews && reviews.length > 0) { .. averageRating .. }]: the new
    average when the test holds; the outer [None] is a TypeError. *)
Definition new_average (reviews : option value) : option (option float) :=
  if Js.truthy reviews then
    match reviews with
    | Some (VArr l) =>
        if Nat.ltb 0 (length l) then
          totalRating ← reduce_rating l (PNum 0);
          Some (Some (Js.div totalRating (PNum (Js.of_nat (length l)))))
        else Some None
    | Some (VStr _) => None             (* a string has no [reduce] *)
    | Some (VObj _) =>
        len ← Js.get reviews "length";
        len ← Js.ToPrimitive len;
        if Js.gt0 len then None         (* a document has no [reduce] *)
        else Some None
    | _ => Some None                    (* [length] is undefined *)
    end
  else Some None.

(** [{ userEmail, userName: req.body.userName || "Anonymous",
      rating: parseFloat(rating), comment, date: new Date() }], as stored. *)
Definition new_review (userEmail : option string) (body : doc) (now : Date)
    : value :=
  VObj [
    ("userEmail", bson_of (VStr <$> userEmail));
    ("userName", if Js.truthy (body !! "userName")
                 then bson_of (body !! "userName") else VStr "Anonymous");
    ("rating", VNum (parseFloat (body !! "rating")));
    ("comment", bson_of (body !! "comment"));
    ("date", VDate now) ].

Definition post_services_id_review (file : SourceFile) (serviceId : string)
    (body : doc) (now : Date) (decoded : Claims) : Store -> Response * Store :=
  try_catch
    (let userEmail := email decoded in
     booking ← bookingsCollection.findOne (qualifying_booking userEmail serviceId);
     if booking is None
     then send (failure 403 "You must book this service before reviewing")
     else
       o ← must (new_ObjectId serviceId);
       service ← servicesCollection.findOne o;
       service ← must service;
       reviewed ← must (hasReviewed service userEmail);
       if reviewed : bool
       then send (failure 400 "You have already reviewed this service")
       else
         let review := new_review userEmail body now in
         updatedService ← servicesCollection.findOneAndUpdate o review;
         reviews ← must (updated_reviews file updatedService);
         averageRating ← must (new_average reviews);
         _ ← match averageRating with
             | Some averageRating =>
                 servicesCollection.updateOne o
                   {[ "averageRating" := VNum averageRating ]}
             | None => mret (UpdateResult 0)
             end;
         mret (ok (Success "Review added successfully")))
    "Failed to add review".

End Handlers.

(** ** The other routes

    These handlers answer with data that [Body] has no form for, or only
    read: a handler that answers [res.send(data)] is run by
    [try_catch_data], which gives the data or the error that is sent. *)

Definition try_catch_data {A} (h : Async A) (message : string)
    (st : Store) : (A + Response) * Store :=
  match h st with
  | (Next a, st') => (inl a, st')
  | (Sent r, st') => (inr r, st')
  | (Thrown, st') => (inr (failure 500 message), st')
  end.

(** The filter [{ field: s }] for a string [s] of the request: the field
    is that string, or an array that holds it; an [undefined] of the
    request is sent as [null], which a missing field matches too. *)
Definition scalar_is (s : option string) (v : option value) : bool :=
  match s, v with
  | Some s, Some (VStr s') => String.eqb s s'
  | None, (None | Some VNull) => true
  | _, _ => false
  end.

Definition field_is (s : option string) (v : option value) : bool :=
  match v with
  | Some (VArr l) => existsb (fun x => scalar_is s (Some x)) l
  | _ => scalar_is s v
  end.

(** The filter [{ field: { $gte: bound } }]: a number not below the bound,
    or an array that holds one. *)
Definition number_at_least (bound : float) (v : value) : bool :=
  match v with
  | VNum x => Bson.num_leb bound x
  | _ => false
  end.

Definition at_least (bound : float) (v : option value) : bool :=
  match v with
  | Some (VArr l) => existsb (number_at_least bound) l
  | Some v => number_at_least bound v
  | None => false
  end.

Section Routes.
Context `{Runtime}.

(** *** GET /services/:id *)

Definition get_services_id (id : string) : Store -> (doc + Response) * Store :=
  try_catch_data
    (o ← must (new_ObjectId id);
     service ← servicesCollection.findOne o;
     match service with
     | None => send (failure 404 "Service not found")
     | Some service => mret service
     end)
    "Failed to fetch service".

(** *** GET /my-services, with [email] of the query string *)

Definition get_my_services (query_email : option string) (decoded : Claims)
    : Store -> Response * Store :=
  try_catch
    (if negb (bool_decide (email decoded = query_email))
     then send (failure 403 "Forbidden access")
     else
       services ← servicesCollection.find
         (fun d => field_is query_email (d !! "providerEmail"));
       mret (ok (Documents services)))
    "Failed to fetch services".

(** *** GET /top-rated-services *)

Definition get_top_rated_services : Store -> Response * Store :=
  try_catch
    (services ← servicesCollection.find
       (fun d => at_least 4 (d !! "averageRating"));
     mret (ok (Documents
                 (take 6 (sort_by (descending "averageRating") services)))))
    "Failed to fetch top-rated services".

(** *** GET /bookings, with [email] of the query string *)

(** [for (let booking of bookings) { booking.service = await findOne(..) }]:
    each booking with the service it names, [None] for [null].  As in
    POST /bookings, [new ObjectId(undefined)] is an identifier that no
    service has. *)
Fixpoint populate_services (bookings : list Booking) : Async (list (Booking * option doc)) :=
  match bookings with
  | [] => mret []
  | booking :: bookings =>
      service ← match serviceId booking with
                | None => mret None
                | Some sid =>
                    o ← must (new_ObjectId sid);
                    servicesCollection.findOne o
                end;
      rest ← populate_services bookings;
      mret ((booking, service) :: rest)
  end.

Definition get_bookings (query_email : option string) (decoded : Claims)
    : Store -> (list (Booking * option doc) + Response) * Store :=
  try_catch_data
    (if negb (bool_decide (email decoded = query_email))
     then send (failure 403 "Forbidden access")
     else
       bookings ← bookingsCollection.find
         (fun b => bool_decide (userEmail b = query_email));
       populate_services bookings)
    "Failed to fetch bookings".

(** *** DELETE /bookings/:id, with [email] of the query string *)

(** [!booking || booking.userEmail !== email]. *)
Definition not_customer (booking : option Booking) (query_email : option string)
    : bool :=
  match booking with
  | None => true
  | Some booking => negb (bool_decide (userEmail booking = query_email))
  end.

Definition delete_bookings_id (id : string) (query_email : option string)
    (decoded : Claims) : Store -> Response * Store :=
  try_catch
    (o ← must (new_ObjectId id);
     booking ← bookingsCollection.findOne (booking_has_id o);
     if not_customer booking query_email
     then send (failure 403 "Forbidden access")
     else
       result ← bookingsCollection.deleteOne o;
       mret (ok result))
    "Failed to cancel booking".

End Routes.

(** ** A runtime to compute with

    ObjectIds are 24 hexadecimal digits, in either case; a token is the
    email it was signed for, and the token [expired] is rejected; every
    document is stored; an embedded path leads through documents and
    arrays.  The sample data hold no string that is read as a number and no
    number that is shown as a string: these conversions are not worked
    out. *)

Definition hex_digit (a : ascii) : option N :=
  let n := N_of_ascii a in
  if (48 <=? n)%N && (n <=? 57)%N then Some (n - 48)%N
  else if (97 <=? n)%N && (n <=? 102)%N then Some (n - 87)%N
  else if (65 <=? n)%N && (n <=? 70)%N then Some (n - 55)%N
  else None.

Fixpoint hex_value (s : string) (acc : N) : option N :=
  match s with
  | EmptyString => Some acc
  | String a s => d ← hex_digit a; hex_value s (16 * acc + d)%N
  end.

Definition sample_ObjectId (s : string) : option ObjectId :=
  if Nat.eqb (String.length s) 24 then hex_value s 0%N else None.

Definition sample_jwt (token : option string) : option Claims :=
  match token with
  | None => None
  | Some t => if String.eqb t "expired" then None else Some {| email := Some t |}
  end.

Definition sample_parseFloat (a : option value) : float :=
  match a with
  | Some (VNum x) => x
  | _ => PrimFloat.nan
  end.

(** A decimal array index. *)
Definition digit (a : ascii) : option nat :=
  let n := nat_of_ascii a in
  if (48 <=? n) && (n <=? 57) then Some (n - 48) else None.

Fixpoint index_value (s : string) (acc : nat) : option nat :=
  match s with
  | EmptyString => Some acc
  | String a s => d ← digit a; index_value s (10 * acc + d)
  end.

Definition array_index (c : string) : option nat :=
  if String.eqb c "" then None else index_value c 0.

Definition field_of (k : string) (o : list (string * value)) : option value :=
  snd <$> List.find (fun kv => String.eqb (fst kv) k) o.

(** A field of an embedded document is replaced where it is, and a new
    one comes last. *)
Fixpoint set_field_of (k : string) (v : value) (o : list (string * value))
    : list (string * value) :=
  match o with
  | [] => [(k, v)]
  | (j, u) :: o => if String.eqb j k then (k, v) :: o else (j, u) :: set_field_of k v o
  end.

(** An index beyond the end of an array pads the array with [null]. *)
Definition set_index (i : nat) (v : value) (l : list value) : list value :=
  if i <? length l then <[i := v]> l
  else l ++ replicate (i - length l) VNull ++ [v].

(** [$set] below a field: [$[]] stands for every member of an array; the
    other components that start with a dollar sign are refused (the
    positional operators find no match and no filter in the updates of the
    handlers). *)
Fixpoint sample_set_path (path : list string) (v : value) (old : option value)
    : option value :=
  match path with
  | [] => Some v
  | c :: path =>
      if String.eqb c "$[]" then
        match old with
        | Some (VArr l) =>
            VArr <$> mapM (fun x => sample_set_path path v (Some x)) l
        | _ => None
        end
      else if dollar c then None
      else
        match old with
        | None => new ← sample_set_path path v None; Some (VObj [(c, new)])
        | Some (VObj o) =>
            new ← sample_set_path path v (field_of c o);
            Some (VObj (set_field_of c new o))
        | Some (VArr l) =>
            i ← array_index c;
            new ← sample_set_path path v (l !! i);
            Some (VArr (set_index i new l))
        | Some _ => None
        end
  end.

Definition sample_set_embedded (path : list string) (v : value)
    (old : option value) : option value :=
  match path with
  | [] => None
  | h :: rest => if dollar h then None else sample_set_path rest v old
  end.

Definition sample_runtime (metadata : bool) : Runtime := {|
  new_ObjectId := sample_ObjectId;
  jwt_verify := sample_jwt;
  includeResultMetadata := metadata;
  parseFloat := sample_parseFloat;
  parseInt := fun _ => None;
  number_to_string := fun _ => "NaN";
  string_to_number := fun _ => PrimFloat.nan;
  object_to_primitive := fun _ => Some (PStr "[object Object]");
  query_matches := fun _ => Some (fun _ => true);
  storable := fun _ => true;
  set_embedded := sample_set_embedded |}.

(** ** Sample data *)

Module Sample.

Definition plumbing_id : string := "64b000000000000000000001".
Definition plumbing_oid : ObjectId := 31161271926386681607226392577%N.

Definition review (user : string) (rating : float) : value :=
  VObj [("userEmail", VStr user); ("userName", VStr "Anonymous");
        ("rating", VNum rating); ("comment", VNull); ("date", VDate 5%Z)].

(** A service of [p@x.com] as POST /services stores it. *)
Definition plumbing : doc :=
  {[ "_id" := VId plumbing_oid; "serviceName" := VStr "Plumbing";
     "providerEmail" := VStr "p@x.com"; "price" := VNum 30%float;
     "createdAt" := VDate 1%Z; "averageRating" := VNum 4.5%float;
     "reviews" := VArr [] ]}.

Definition rated (oid : ObjectId) (price rating : float) : doc :=
  {[ "_id" := VId oid; "providerEmail" := VStr "p@x.com";
     "price" := VNum price; "averageRating" := VNum rating;
     "reviews" := VArr [] ]}.

Definition poor : doc := rated 1%N 10%float 1%float.
Definition good : doc := rated 2%N 20%float 5%float.

Definition booked (n : N) (user status : string) : Booking :=
  {| b_id := Some (VId n); userEmail := Some user;
     serviceId := Some plumbing_id; status := Some status;
     createdAt := Some 2%Z; b_fields := ∅ |}.

Definition request (user : string) : Booking :=
  {| b_id := None; userEmail := Some user; serviceId := Some plumbing_id;
     status := None; createdAt := None; b_fields := ∅ |}.

Definition store (services : list doc) (bookings : list Booking) : Store :=
  {| services := services; bookings := bookings; journal := [] |}.

Definition owner : Claims := {| email := Some "p@x.com" |}.
Definition customer : Claims := {| email := Some "c@x.com" |}.
Definition mallory : Claims := {| email := Some "m@x.com" |}.

(** A PATCH body that names another identifier and a new price. *)
Definition price_update : doc :=
  {[ "_id" := VStr "other"; "price" := VNum 35%float ]}.

(** The provider deletes the service, which has two bookings. *)
Definition deleted : Response * Store :=
  delete_services_id (H := sample_runtime false) plumbing_id (Some "p@x.com")
    owner
    (store [plumbing] [booked 1 "c@x.com" "pending"; booked 2 "d@x.com" "cancelled"]).

(** The caller holds the token of [m@x.com] and names [p@x.com] in the
    query string. *)
Definition hijacked_patch : Response * Store :=
  protected (H := sample_runtime false) (Some "Bearer m@x.com")
    (patch_services_id (H := sample_runtime false) plumbing_id
       (Some "p@x.com") price_update 9%Z)
    (store [plumbing] []).

Definition hijacked_delete : Response * Store :=
  protected (H := sample_runtime false) (Some "Bearer m@x.com")
    (delete_services_id (H := sample_runtime false) plumbing_id
       (Some "p@x.com"))
    (store [plumbing] [booked 1 "c@x.com" "pending"]).

(** The provider holds the own token and names no email. *)
Definition unnamed_patch : Response * Store :=
  protected (H := sample_runtime false) (Some "Bearer p@x.com")
    (patch_services_id (H := sample_runtime false) plumbing_id None
       price_update 9%Z)
    (store [plumbing] []).


(** [c@x.com], who has a pending booking, rates the service 5: index.js
    with a driver that answers with a ModifyResult, and server.js with a
    driver that answers with the document. *)
Definition booked_store : Store :=
  store [plumbing] [booked 1 "c@x.com" "pending"].

Definition index_js_on_metadata : Response * Store :=
  post_services_id_review (H := sample_runtime true) IndexJs plumbing_id
    {[ "rating" := VNum 5 ]} 5%Z customer booked_store.

Definition server_js_on_document : Response * Store :=
  post_services_id_review (H := sample_runtime false) ServerJs plumbing_id
    {[ "rating" := VNum 5 ]} 5%Z customer booked_store.

(** The same with the file that reads the result as the driver gives it. *)
Definition index_js_on_document : Response * Store :=
  post_services_id_review (H := sample_runtime false) IndexJs plumbing_id
    {[ "rating" := VNum 5 ]} 5%Z customer booked_store.

Definition by_rating : ListParams :=
  {| limit := None; category := None; minPrice := None; maxPrice := None;
     search := None; sortBy := Some "rating" |}.

Definition by_rating_desc : ListParams :=
  {| limit := None; category := None; minPrice := None; maxPrice := None;
     search := None; sortBy := Some "rating-desc" |}.

End Sample.

(** ** Statements *)




(** The database after the review is pushed onto the service [o], which
    becomes [d']. *)
Definition pushed (o : ObjectId) (review : value) (d' : doc) (st : Store) : Store :=
  {| services := update_first (has_id o) (fun _ => d') (services st);
     bookings := bookings st;
     journal := journal st ++ [PushReview o review] |}.

(** The database after the average is set on the service [o], which was
    [d']. *)
Definition averaged (o : ObjectId) (avg : float) (d' : doc) (st : Store) : Store :=
  {| services :=
       update_first (has_id o)
         (fun _ => <["averageRating" := VNum avg]> d') (services st);
     bookings := bookings st;
     journal := journal st ++ [SetService o {[ "averageRating" := VNum avg ]}] |}.

(** What [findOneAndUpdate] answers for the updated document [d']. *)
Definition answered `{Runtime} (d' : doc) : ModifyResult :=
  if includeResultMetadata then Metadata (Some d') else Document (Some d').

(** The file reads the result of [findOneAndUpdate] in the shape the
    driver gives it. *)
Definition reads_result `{Runtime} (file : SourceFile) : Prop :=
  match file with
  | IndexJs => includeResultMetadata = false
  | ServerJs => includeResultMetadata = true
  end.





(** The arithmetic mean of a list of numbers. *)
Definition mean (ratings : list float) : float :=
  (fold_left PrimFloat.add ratings 0 / Js.of_nat (length ratings))%float.

(** The ratings of a list of reviews, when each has a number. *)
Fixpoint ratings_of (reviews : list value) : option (list float) :=
  match reviews with
  | [] => Some []
  | r :: reviews =>
      match Js.get (Some r) "rating" with
      | Some (Some (VNum x)) => cons x <$> ratings_of reviews
      | _ => None
      end
  end.

(** GET /services answers in the order [order] when the sort selector is
    [selector]. *)
Definition listing_sorted (selector : string) (order : doc -> doc -> bool) : Prop :=
  forall (rt : Runtime) (p : ListParams) (st st' : Store) (docs : list doc),
    sortBy p = Some selector ->
    get_services p st = (ok (Documents docs), st') ->
    StronglySorted (fun a b => order a b = true) docs.

(** GET /services answers the services that satisfy the query in the order
    of the collection, all of them or the first of them, when the sort
    selector is none of the three that the handler knows. *)
Definition listing_in_collection_order : Prop :=
  forall (rt : Runtime) (p : ListParams) (st st' : Store) (docs : list doc),
    sortBy p <> Some "rating" -> sortBy p <> Some "price-asc" ->
    sortBy p <> Some "price-desc" ->
    get_services p st = (ok (Documents docs), st') ->
    exists matches,
      query_matches (build_query p) = Some matches /\
      docs `prefix_of` List.filter matches (services st) /\
      (given (limit p) = false -> docs = List.filter matches (services st)).

(** The partial merge of PATCH /services/:id as C10 states it, for every
    request: a field of the service that is no key of the payload keeps
    its value. *)
Definition partial_merge_as_stated : Prop :=
  forall (rt : Runtime) (id : string) (email : option string)
         (updateData : doc) (now : Date) (decoded : Claims) (st st' : Store)
         (r : Response) (o : ObjectId) (k : string),
    patch_services_id id email updateData now decoded st = (r, st') ->
    statusCode r = 200 ->
    new_ObjectId id = Some o ->
    k <> "updatedAt" ->
    updateData !! k = None ->
    List.find (has_id o) (services st') ≫= (.!! k)
    = List.find (has_id o) (services st) ≫= (.!! k).

(** ** Invariants of the collections *)

(** No two services have the same ObjectId. *)
Definition oids_distinct (l : list doc) : Prop :=
  forall o, length (List.filter (has_id o) l) <= 1.


(** The service identifier of every booking is one that [new ObjectId]
    accepts. *)
Definition ids_parse `{Runtime} (l : list Booking) : Prop :=
  forall b sid, b ∈ l -> serviceId b = Some sid -> is_Some (new_ObjectId sid).

(** Whether a string holds the character [c]. *)
Fixpoint has_char (c : ascii) (s : string) : bool :=
  match s with
  | EmptyString => false
  | String a s => Ascii.eqb a c || has_char c s
  end.

(** The plain name of a field: it is not empty, has no dot and does not
    start with a dollar sign. *)
Definition plain_key (k : string) : bool :=
  negb (String.eqb k "") && negb (has_char "."%char k) && negb (dollar k).

(** The field that a path of an update names: its first component. *)
Definition head_of (key : string) : string := hd EmptyString (path_of key).

(** ** Comparisons

    What makes a three-way comparison an order: for the comparisons of
    [a] with [b], of [b] with [c] and of [a] with [c]. *)
Definition trans3 (ab bc ac : comparison) : Prop :=
  match ab, bc with
  | Eq, c => ac = c
  | c, Eq => ac = c
  | Lt, Lt => ac = Lt
  | Gt, Gt => ac = Gt
  | _, _ => True
  end.

(** The place of a number on the line: NaN, the negative infinity, the
    negative numbers, the zeros, the positive numbers, the positive
    infinity. *)
Definition place (x : spec_float) : Z * Z * Z :=
  match x with
  | S754_nan => (0, 0, 0)
  | S754_infinity true => (1, 0, 0)
  | S754_finite true m e => (2, - e, Z.neg m)
  | S754_zero _ => (3, 0, 0)
  | S754_finite false m e => (4, e, Z.pos m)
  | S754_infinity false => (5, 0, 0)
  end%Z.

Definition place_compare (p q : Z * Z * Z) : comparison :=
  Bson.lex (Z.compare p.1.1 q.1.1)
    (Bson.lex (Z.compare p.1.2 q.1.2) (Z.compare p.2 q.2)).

(** ** More sample data *)

Module Cases.

(** The identifier of [Sample.plumbing] in capital letters. *)
Definition capital_id : string := "64B000000000000000000001".

Definition booked_as (n : N) (user sid : string) : Booking :=
  {| b_id := Some (VId n); userEmail := Some user; serviceId := Some sid;
     status := Some "pending"; createdAt := Some 2%Z; b_fields := ∅ |}.

Definition new_service : doc :=
  {[ "serviceName" := VStr "Cleaning"; "providerEmail" := VStr "p@x.com";
     "averageRating" := VNum 1; "reviews" := VArr [VStr "fake"] ]}.



(** POST /services with a body that names a rating and a review. *)
Definition cleaning_id : string := "000000000000000000000009".

Definition created : Response * Store :=
  post_services (H := sample_runtime false) new_service 3%Z 9%N Sample.owner
    (Sample.store [Sample.plumbing] []).

(** [c@x.com] cancels the first of two bookings; the token is another
    one. *)
Definition first_booking_id : string := "000000000000000000000001".

Definition two_bookings : Store :=
  Sample.store [Sample.plumbing]
    [booked_as 1 "c@x.com" Sample.plumbing_id;
     booked_as 2 "d@x.com" Sample.plumbing_id].

Definition cancelled : Response * Store :=
  delete_bookings_id (H := sample_runtime false) first_booking_id
    (Some "c@x.com") Sample.mallory two_bookings.

(** The provider hands the service over to [q@x.com]. *)
Definition handover : doc := {[ "providerEmail" := VStr "q@x.com" ]}.

Definition handed_over : Response * Store :=
  patch_services_id (H := sample_runtime false) Sample.plumbing_id
    (Some "p@x.com") handover 9%Z Sample.owner
    (Sample.store [Sample.plumbing] []).

(** The service is deleted while a booking names it in capital letters. *)
Definition named_in_capitals : Store :=
  Sample.store [Sample.plumbing] [booked_as 1 "c@x.com" capital_id].

Definition deleted_by_text : Response * Store :=
  delete_services_id (H := sample_runtime false) Sample.plumbing_id
    (Some "p@x.com") Sample.owner named_in_capitals.

(** The provider deletes the service under its identifier in capital
    letters; the booking names it in small letters. *)
Definition deleted_in_capitals : Response * Store :=
  delete_services_id (H := sample_runtime false) capital_id (Some "p@x.com")
    Sample.owner Sample.booked_store.

(** A PATCH body with an [_id], a price and a path into the reviews. *)
Definition deep_update : doc :=
  {[ "_id" := VStr "other"; "price" := VNum 35%float;
     "reviews.0.rating" := VNum 1%float ]}.

Definition deep_patched : Response * Store :=
  patch_services_id (H := sample_runtime false) Sample.plumbing_id
    (Some "p@x.com") deep_update 9%Z Sample.owner
    (Sample.store [Sample.plumbing] []).


End Cases.

(** ** Proof automation *)

(** Unfolds the sequencing of a handler body. *)
Ltac async :=
  unfold try_catch, try_catch_data, must, send, throw;
  repeat (unfold mbind, mret, Async_bind, Async_ret; cbn beta iota).

(** * Properties *)

(** ** Lists *)

Lemma find_update_first {A} (p : A -> bool) (f : A -> A) (l : list A) :
  (forall x, p x = true -> p (f x) = true) ->
  List.find p (update_first p f l) = f <$> List.find p l.
Proof.
  intros Hp. induction l as [|x l IH]; [done|].
  cbn [update_first List.find]. destruct (p x) eqn:Hx.
  - cbn [List.find]. by rewrite (Hp x Hx).
  - cbn [List.find]. by rewrite Hx.
Qed.

Lemma update_first_none {A} (p : A -> bool) (f : A -> A) (l : list A) :
  List.find p l = None -> update_first p f l = l.
Proof.
  induction l as [|x l IH]; [done|]. cbn [update_first List.find].
  destruct (p x); [done|]. intros Hl. by rewrite IH.
Qed.

Lemma elem_of_update_first {A} (p : A -> bool) (f : A -> A) (l : list A) (x : A) :
  x ∈ update_first p f l -> x ∈ l \/ exists y, y ∈ l /\ p y = true /\ x = f y.
Proof.
  induction l as [|y l IH]; [cbn; by rewrite elem_of_nil|]. cbn [update_first].
  destruct (p y) eqn:Hy; rewrite !elem_of_cons.
  - intros [->|Hx]; [right; exists y|left]; rewrite ?elem_of_cons; auto.
  - intros [->|Hx]; [by auto|].
    destruct (IH Hx) as [?|(z & ? & ? & ?)]; [by auto|].
    right. exists z. rewrite elem_of_cons. auto.
Qed.

Lemma find_some_elem {A} (p : A -> bool) (l : list A) (x : A) :
  List.find p l = Some x -> x ∈ l /\ p x = true.
Proof.
  intros Hx. apply List.find_some in Hx as [Hin Hp].
  by rewrite list_elem_of_In.
Qed.

Lemma find_none_elem {A} (p : A -> bool) (l : list A) :
  List.find p l = None <-> forall x, x ∈ l -> p x = false.
Proof.
  split.
  - intros Hn x Hx. apply (List.find_none p l Hn). by rewrite <- list_elem_of_In.
  - induction l as [|x l IH]; [done|]. intros Hall. cbn [List.find].
    rewrite (Hall x) by apply list_elem_of_here.
    apply IH. intros y Hy. apply Hall. by apply list_elem_of_further.
Qed.

(** ** The order of BSON values is a total preorder *)

Module BsonFacts.
Import Bson.

Lemma lex_opp (c d : comparison) : CompOpp (lex c d) = lex (CompOpp c) (CompOpp d).
Proof. by destruct c. Qed.

(** The second comparisons count only where the first ones are [Eq]. *)
Lemma lex_trans3 (x1 y1 z1 x2 y2 z2 : comparison) :
  trans3 x1 y1 z1 -> (x1 = Eq -> y1 = Eq -> trans3 x2 y2 z2) ->
  trans3 (lex x1 x2) (lex y1 y2) (lex z1 z2).
Proof.
  destruct x1, y1, z1; cbn; try done; intros _ H2;
    try (by destruct x2); try (by destruct y2); by apply H2.
Qed.

(** A comparison that decides equality and whose [Lt] is transitive. *)
Lemma order_trans3 {A} (cmp : A -> A -> comparison) :
  (forall a b, cmp b a = CompOpp (cmp a b)) ->
  (forall a b, cmp a b = Eq -> a = b) ->
  (forall a b c, cmp a b = Lt -> cmp b c = Lt -> cmp a c = Lt) ->
  forall a b c, trans3 (cmp a b) (cmp b c) (cmp a c).
Proof.
  intros Hopp Heq Hlt a b c.
  destruct (cmp a b) eqn:Hab, (cmp b c) eqn:Hbc; cbn; try done.
  - by rewrite (Heq a b Hab).
  - by rewrite (Heq a b Hab).
  - by rewrite (Heq a b Hab).
  - by rewrite <- (Heq b c Hbc).
  - by apply (Hlt a b c).
  - by rewrite <- (Heq b c Hbc).
  - rewrite Hopp. rewrite (Hlt c b a); [done| |].
    + by rewrite Hopp, Hbc.
    + by rewrite Hopp, Hab.
Qed.

Lemma nat_trans3 (a b c : nat) :
  trans3 (Nat.compare a b) (Nat.compare b c) (Nat.compare a c).
Proof.
  apply order_trans3.
  - intros x y. apply Nat.compare_antisym.
  - intros x y. apply Nat.compare_eq.
  - intros x y z. rewrite !Nat.compare_lt_iff. lia.
Qed.

Lemma N_trans3 (a b c : N) :
  trans3 (N.compare a b) (N.compare b c) (N.compare a c).
Proof.
  apply order_trans3.
  - intros x y. apply N.compare_antisym.
  - intros x y. apply N.compare_eq.
  - intros x y z. rewrite !N.compare_lt_iff. lia.
Qed.

Lemma Z_trans3 (a b c : Z) :
  trans3 (Z.compare a b) (Z.compare b c) (Z.compare a c).
Proof.
  apply order_trans3.
  - intros x y. apply Z.compare_antisym.
  - intros x y. apply Z.compare_eq.
  - intros x y z. rewrite !Z.compare_lt_iff. lia.
Qed.

Lemma ascii_compare_lt_trans (a b c : ascii) :
  Ascii.compare a b = Lt -> Ascii.compare b c = Lt -> Ascii.compare a c = Lt.
Proof. unfold Ascii.compare. rewrite !N.compare_lt_iff. lia. Qed.

Lemma string_lt_trans (s1 s2 s3 : string) :
  String.compare s1 s2 = Lt -> String.compare s2 s3 = Lt ->
  String.compare s1 s3 = Lt.
Proof.
  revert s2 s3.
  induction s1 as [|a s1 IH]; intros [|b s2] [|c s3]; cbn [String.compare];
    try done.
  destruct (Ascii.compare a b) eqn:Hab; [| |done];
    destruct (Ascii.compare b c) eqn:Hbc; try done.
  - apply Ascii.compare_eq_iff in Hab as ->. rewrite Hbc. apply IH.
  - apply Ascii.compare_eq_iff in Hab as ->. by rewrite Hbc.
  - apply Ascii.compare_eq_iff in Hbc as <-. by rewrite Hab.
  - by rewrite (ascii_compare_lt_trans a b c).
Qed.

Lemma string_trans3 (a b c : string) :
  trans3 (String.compare a b) (String.compare b c) (String.compare a c).
Proof.
  apply order_trans3.
  - intros x y. apply String.compare_antisym.
  - intros x y. apply String.compare_eq_iff.
  - apply string_lt_trans.
Qed.

(** Numbers are compared as their places on the line are. *)
Lemma sf_compare_place (x y : spec_float) :
  sf_compare x y = place_compare (place x) (place y).
Proof.
  unfold sf_compare, place_compare.
  destruct x as [[]|[]| |[] m1 e1], y as [[]|[]| |[] m2 e2]; try done;
    cbn [SFcompare place fst snd lex].
  all: change (PosDef.Pos.compare_cont Eq m1 m2) with (Pos.compare m1 m2).
  - rewrite Z.compare_opp. destruct (Z.compare_spec e2 e1) as [->|He|He].
    + rewrite Z.compare_refl. cbn. by rewrite Pos.compare_antisym.
    + apply Z.compare_gt_iff in He as ->. done.
    + apply Z.compare_lt_iff in He as ->. done.
  - by destruct (Z.compare e1 e2).
Qed.

Lemma place_trans3 (p q r : Z * Z * Z) :
  trans3 (place_compare p q) (place_compare q r) (place_compare p r).
Proof.
  unfold place_compare. apply lex_trans3; [apply Z_trans3|]. intros _ _.
  apply lex_trans3; [apply Z_trans3|]. intros _ _. apply Z_trans3.
Qed.

Lemma num_trans3 (x y z : float) :
  trans3 (num_compare x y) (num_compare y z) (num_compare x z).
Proof. unfold num_compare. rewrite !sf_compare_place. apply place_trans3. Qed.

Lemma num_antisym (x y : float) : num_compare y x = CompOpp (num_compare x y).
Proof.
  unfold num_compare. rewrite !sf_compare_place. unfold place_compare.
  by rewrite !lex_opp, <- !Z.compare_antisym.
Qed.

Lemma bool_trans3 (x y z : bool) :
  trans3 (match x, y with false, true => Lt | true, false => Gt | _, _ => Eq end)
    (match y, z with false, true => Lt | true, false => Gt | _, _ => Eq end)
    (match x, z with false, true => Lt | true, false => Gt | _, _ => Eq end).
Proof. by destruct x, y, z. Qed.

(** Lists, pair by pair. *)
Lemma pairs_antisym {A} (cmp : A -> A -> comparison) (x : list A) :
  Forall (fun u => forall v, cmp v u = CompOpp (cmp u v)) x ->
  forall y, pairs cmp y x = CompOpp (pairs cmp x y).
Proof.
  induction 1 as [|u x Hu _ IH]; intros [|v y]; cbn; try done.
  by rewrite lex_opp, Hu, IH.
Qed.

Lemma pairs_trans3 {A} (cmp : A -> A -> comparison) (x : list A) :
  Forall (fun u => forall v w, trans3 (cmp u v) (cmp v w) (cmp u w)) x ->
  forall y z, trans3 (pairs cmp x y) (pairs cmp y z) (pairs cmp x z).
Proof.
  induction 1 as [|u x Hu _ IH]; intros [|v y] [|w z]; cbn; try done.
  - by destruct (lex _ _).
  - by destruct (lex _ _).
  - apply lex_trans3; [apply Hu|]. intros _ _. apply IH.
Qed.

Lemma value_ind' (P : value -> Prop) :
  P VNull -> (forall b, P (VBool b)) -> (forall x, P (VNum x)) ->
  (forall s, P (VStr s)) -> (forall o, P (VId o)) -> (forall t, P (VDate t)) ->
  (forall l, Forall P l -> P (VArr l)) ->
  (forall o, Forall (fun kv => P (snd kv)) o -> P (VObj o)) ->
  forall v, P v.
Proof.
  intros Hnull Hbool Hnum Hstr Hid Hdate Harr Hobj. fix IH 1.
  intros [|b|x|s|o|t|l|o]; [done..| |].
  - apply Harr. induction l as [|v l IHl]; constructor; [apply IH|exact IHl].
  - apply Hobj. induction o as [|kv o IHo]; constructor; [apply IH|exact IHo].
Qed.

Lemma compare_antisym (a : value) :
  forall b, compare b a = CompOpp (compare a b).
Proof.
  induction a as [|x|x|x|x|x|x IH|x IH] using value_ind';
    intros [|y|y|y|y|y|y|y]; try done; cbn.
  - by destruct x, y.
  - apply num_antisym.
  - apply String.compare_antisym.
  - apply N.compare_antisym.
  - apply Z.compare_antisym.
  - apply pairs_antisym. done.
  - apply pairs_antisym. eapply Forall_impl; [exact IH|].
    intros [j u] Hu [k v]. cbn in *.
    by rewrite !lex_opp, <- Nat.compare_antisym, <- String.compare_antisym, Hu.
Qed.

Lemma compare_trans3 (a : value) :
  forall b c, trans3 (compare a b) (compare b c) (compare a c).
Proof.
  induction a as [|x|x|x|x|x|x IH|x IH] using value_ind';
    intros [|y|y|y|y|y|y|y] [|z|z|z|z|z|z|z]; cbn -[trans3]; try done.
  all: try match goal with |- trans3 ?c Lt Lt => by destruct c end.
  all: try match goal with |- trans3 ?c Gt Gt => by destruct c end.
  all: try match goal with |- trans3 Lt ?c Lt => by destruct c end.
  all: try match goal with |- trans3 Gt ?c Gt => by destruct c end.
  - apply bool_trans3.
  - apply num_trans3.
  - apply string_trans3.
  - apply N_trans3.
  - apply Z_trans3.
  - by apply pairs_trans3.
  - apply pairs_trans3. eapply Forall_impl; [exact IH|].
    intros [j u] Hu [k v] [m w]. cbn in *.
    apply lex_trans3; [apply nat_trans3|]. intros _ _.
    apply lex_trans3; [apply string_trans3|]. intros _ _. apply Hu.
Qed.

Lemma key_antisym (a b : option value) :
  key_compare b a = CompOpp (key_compare a b).
Proof. destruct a, b; cbn; try done. apply compare_antisym. Qed.

Lemma key_trans3 (a b c : option value) :
  trans3 (key_compare a b) (key_compare b c) (key_compare a c).
Proof.
  destruct a, b, c; cbn; try done; try apply compare_trans3.
  - by destruct (compare _ _).
  - by destruct (compare _ _).
Qed.

Lemma key_leb_total (a b : option value) :
  key_leb a b = false -> key_leb b a = true.
Proof.
  unfold key_leb. rewrite (key_antisym a b). by destruct (key_compare a b).
Qed.

Lemma key_leb_trans (a b c : option value) :
  key_leb a b = true -> key_leb b c = true -> key_leb a c = true.
Proof.
  unfold key_leb. pose proof (key_trans3 a b c) as Ht.
  destruct (key_compare a b), (key_compare b c); cbn in Ht; try done;
    by rewrite Ht.
Qed.

Lemma num_leb_total (x y : float) : num_leb x y = false -> num_leb y x = true.
Proof.
  unfold num_leb. rewrite (num_antisym x y). by destruct (num_compare x y).
Qed.

Lemma num_leb_trans (x y z : float) :
  num_leb x y = true -> num_leb y z = true -> num_leb x z = true.
Proof.
  unfold num_leb. pose proof (num_trans3 x y z) as Ht.
  destruct (num_compare x y), (num_compare y z); cbn in Ht; try done;
    by rewrite Ht.
Qed.

Lemma eqb_id (x y : ObjectId) : eqb (VId x) (VId y) = N.eqb x y.
Proof.
  unfold eqb. cbn. rewrite N.eqb_compare. by destruct (N.compare x y).
Qed.

End BsonFacts.

(** ** Sorting *)

Section Sorting.
Variable le : doc -> doc -> bool.
Hypothesis le_total : forall a b, le a b = false -> le b a = true.
Hypothesis le_trans : forall a b c, le a b = true -> le b c = true -> le a c = true.

Lemma insert_by_perm (x : doc) (l : list doc) : insert_by le x l ≡ₚ x :: l.
Proof.
  induction l as [|y l IH]; [done|]. cbn [insert_by].
  destruct (le x y); [done|]. by rewrite IH, Permutation_swap.
Qed.

Lemma sort_by_perm (l : list doc) : sort_by le l ≡ₚ l.
Proof.
  induction l as [|x l IH]; [done|]. unfold sort_by in *. cbn [foldr].
  by rewrite insert_by_perm, IH.
Qed.

Lemma insert_by_sorted (x : doc) (l : list doc) :
  StronglySorted (fun a b => le a b = true) l ->
  StronglySorted (fun a b => le a b = true) (insert_by le x l).
Proof.
  induction 1 as [|y l Hl IH Hy]; cbn [insert_by].
  - by repeat constructor.
  - destruct (le x y) eqn:Hxy.
    + constructor; [by constructor|].
      constructor; [done|].
      eapply Forall_impl; [exact Hy|]. intros z Hz. by apply (le_trans x y z).
    + constructor; [done|].
      rewrite insert_by_perm. constructor; [|done]. by apply le_total.
Qed.

Lemma sort_by_sorted (l : list doc) :
  StronglySorted (fun a b => le a b = true) (sort_by le l).
Proof.
  induction l as [|x l IH]; [constructor|].
  unfold sort_by in *. cbn [foldr]. by apply insert_by_sorted.
Qed.

End Sorting.

Lemma StronglySorted_take {A} (R : A -> A -> Prop) (n : nat) (l : list A) :
  StronglySorted R l -> StronglySorted R (take n l).
Proof.
  intros Hl. revert n. induction Hl as [|x l Hl IH Hx]; intros [|n]; cbn;
    try constructor; [apply IH|].
  rewrite Forall_forall in Hx. apply Forall_forall. intros y Hy.
  apply Hx. eapply subseteq_take, Hy.
Qed.

Lemma ascending_sorted (field : string) (l : list doc) :
  StronglySorted (fun a b => ascending field a b = true)
    (sort_by (ascending field) l).
Proof.
  apply sort_by_sorted; unfold ascending; intros ? *.
  - apply BsonFacts.key_leb_total.
  - apply BsonFacts.key_leb_trans.
Qed.

Lemma descending_sorted (field : string) (l : list doc) :
  StronglySorted (fun a b => descending field a b = true)
    (sort_by (descending field) l).
Proof.
  apply sort_by_sorted; unfold descending; intros a b.
  - apply BsonFacts.key_leb_total.
  - intros c Hab Hbc.
    by apply (BsonFacts.key_leb_trans _ (Bson.sort_key Gt (b !! field))).
Qed.

(** ** GET /services: the sort selectors *)

Lemma apply_limit_sorted `{Runtime} (R : doc -> doc -> Prop) (p : ListParams)
    (cursor docs : list doc) :
  StronglySorted R cursor -> apply_limit p cursor = Some docs ->
  StronglySorted R docs.
Proof.
  intros Hs. unfold apply_limit. destruct (given (limit p)); [|by intros [= <-]].
  destruct (parseInt _) as [[|n|n]|]; try done; [by intros [= <-]| |];
    destruct (_ <? _)%Z; intros [= <-]; by apply StronglySorted_take.
Qed.

Lemma apply_limit_prefix `{Runtime} (p : ListParams) (cursor docs : list doc) :
  apply_limit p cursor = Some docs ->
  docs `prefix_of` cursor /\ (given (limit p) = false -> docs = cursor).
Proof.
  unfold apply_limit. destruct (given (limit p)); [|by intros [= <-]].
  destruct (parseInt _) as [[|n|n]|]; try done; [by intros [= <-]| |];
    destruct (_ <? _)%Z; intros [= <-]; (split; [|done]); apply prefix_take.
Qed.

Lemma get_services_docs `{Runtime} (p : ListParams) (st st' : Store)
    (docs : list doc) :
  get_services p st = (ok (Documents docs), st') ->
  exists matches,
    query_matches (build_query p) = Some matches /\
    apply_limit p (apply_sort p (List.filter matches (services st))) = Some docs.
Proof.
  unfold get_services. async.
  destruct (query_matches (build_query p)) as [matches|]; cbn; [|done].
  destruct (apply_limit p (apply_sort p (List.filter matches (services st))))
    as [docs'|] eqn:Hl; cbn; [|done].
  intros [= <- <-]. eauto.
Qed.

(** The selector [rating-desc] is not one the handler knows: the answer
    is in the order of the collection. *)
Lemma rating_desc_not_sorted :
  ~ listing_sorted "rating-desc" (descending "averageRating").
Proof.
  intros Hs.
  pose (st := Sample.store [Sample.poor; Sample.good] []).
  specialize (Hs (sample_runtime false) Sample.by_rating_desc st st
                 [Sample.poor; Sample.good] eq_refl eq_refl).
  inversion Hs as [|? ? _ Hhd]; subst. inversion Hhd as [|? ? Hle _]; subst.
  vm_compute in Hle. discriminate.
Qed.

(** C9 (as the handler has it): for every service-listing request whose sort
    selector is [rating], the returned services are in descending order of
    [averageRating]; with [price-asc] and [price-desc] they are in ascending
    and descending order of [price]; with any other selector, [rating-desc]
    included, they are in the order of the collection. *)
Theorem listing_order :
  listing_sorted "rating" (descending "averageRating") /\
  listing_sorted "price-asc" (ascending "price") /\
  listing_sorted "price-desc" (descending "price") /\
  listing_in_collection_order.
Proof.
  split; [|split; [|split]].
  1-3: intros rt p st st' docs Hsel Hget;
    apply get_services_docs in Hget as (matches & _ & Hl);
    eapply apply_limit_sorted; try exact Hl;
    unfold apply_sort; rewrite Hsel; cbn.
  - apply descending_sorted.
  - apply ascending_sorted.
  - apply descending_sorted.
  - intros rt p st st' docs H1 H2 H3 Hget.
    apply get_services_docs in Hget as (matches & Hq & Hl).
    exists matches. split; [done|]. apply apply_limit_prefix.
    revert Hl. unfold apply_sort.
    by rewrite !bool_decide_eq_false_2.
Qed.

Lemma listing_order_witness :
  StronglySorted (fun a b => descending "averageRating" a b = true)
    [Sample.good; Sample.poor].
Proof.
  apply (proj1 listing_order (sample_runtime false) Sample.by_rating
           (Sample.store [Sample.poor; Sample.good] [])
           (Sample.store [Sample.poor; Sample.good] []));
    reflexivity.
Defined.

(** ** The update operator [$set] *)

Lemma split_on_cons (c : ascii) (s : string) :
  exists w ws, split_on c s = w :: ws.
Proof.
  destruct s as [|a s]; cbn; [by eauto|].
  destruct (Ascii.eqb a c); [by eauto|]. destruct (split_on c s); eauto.
Qed.

Lemma split_on_word (c : ascii) (s : string) :
  has_char c s = false -> split_on c s = [s].
Proof.
  induction s as [|a s IH]; [done|]. cbn.
  destruct (Ascii.eqb a c); [done|]. cbn. intros Hs. by rewrite IH.
Qed.

Lemma path_of_plain (k : string) : plain_key k = true -> path_of k = [k].
Proof.
  unfold plain_key. rewrite !andb_true_iff, !negb_true_iff.
  intros [[_ Hdot] _]. by apply split_on_word.
Qed.

Lemma head_of_plain (k : string) : plain_key k = true -> head_of k = k.
Proof. intros Hk. unfold head_of. by rewrite path_of_plain. Qed.

Section SetFacts.
Context `{Runtime}.

(** A path of [$set] writes the field that its first component names
    and no other. *)
Lemma set_field_frame (key : string) (v : value) (d d' : doc) (k : string) :
  set_field key v d = Some d' -> head_of key <> k -> d' !! k = d !! k.
Proof.
  unfold set_field, head_of.
  destruct (path_of key) as [|h rest]; [done|]. cbn [hd].
  destruct (String.eqb h "_id").
  { destruct rest; [|done]. destruct (d !! "_id"); [|done].
    destruct (Bson.eqb v v0); [|done]. by intros [= <-]. }
  assert (forall o : option value,
            o ≫= (fun new => Some (<[h := new]> d)) = Some d' ->
            h <> k -> d' !! k = d !! k) as Hemb.
  { intros [new|]; [|done]. cbn. intros [= <-] Hk. by rewrite lookup_insert_ne. }
  destruct rest; [|apply Hemb].
  destruct (dollar h); [apply Hemb|].
  intros [= <-] Hk. by rewrite lookup_insert_ne.
Qed.

Lemma set_field_id (key : string) (v : value) (d d' : doc) :
  set_field key v d = Some d' -> d' !! "_id" = d !! "_id".
Proof.
  intros Hs. destruct (decide (head_of key = "_id")) as [Hid|Hid];
    [|by apply (set_field_frame key v)].
  revert Hs Hid. unfold set_field, head_of.
  destruct (path_of key) as [|h rest]; [done|]. cbn [hd]. intros Hs ->.
  cbn in Hs. destruct rest; [|done]. destruct (d !! "_id") eqn:Hd; [|done].
  destruct (Bson.eqb v v0); [|done]. by injection Hs as <-.
Qed.

Lemma set_field_plain (k : string) (v : value) (d : doc) :
  plain_key k = true -> k <> "_id" -> set_field k v d = Some (<[k := v]> d).
Proof.
  intros Hk Hid. unfold set_field. rewrite (path_of_plain k Hk).
  apply String.eqb_neq in Hid as ->.
  revert Hk. unfold plain_key. rewrite !andb_true_iff, !negb_true_iff.
  by intros [_ ->].
Qed.

Lemma set_all_frame (l : list (string * value)) (d d' : doc) (k : string) :
  set_all l d = Some d' ->
  (forall key v, (key, v) ∈ l -> head_of key <> k) ->
  d' !! k = d !! k.
Proof.
  revert d'. induction l as [|[key v] l IH]; intros d'; cbn.
  - by intros [= <-].
  - fold (set_all l d). destruct (set_all l d) as [d1|]; [|done]. cbn.
    intros Hs Hl. rewrite (set_field_frame key v d1 d' k Hs).
    + apply IH; [done|]. intros key' v' Hin. apply (Hl key' v').
      by apply list_elem_of_further.
    + apply (Hl key v). apply list_elem_of_here.
Qed.

Lemma set_all_id (l : list (string * value)) (d d' : doc) :
  set_all l d = Some d' -> d' !! "_id" = d !! "_id".
Proof.
  revert d'. induction l as [|[key v] l IH]; intros d'; cbn.
  - by intros [= <-].
  - fold (set_all l d). destruct (set_all l d) as [d1|]; [|done]. cbn.
    intros Hs. rewrite (set_field_id key v d1 d' Hs). by apply IH.
Qed.

(** In an update that the server accepts, the plain name of a field is the
    only path that writes the field. *)
Lemma set_all_plain (l : list (string * value)) (d d' : doc) (k : string)
    (v : value) :
  NoDup l.*1 -> conflict_free (path_of <$> l.*1) = true ->
  (k, v) ∈ l -> plain_key k = true -> k <> "_id" ->
  set_all l d = Some d' -> d' !! k = Some v.
Proof.
  intros Hdup Hfree Hin Hk Hid. revert d' Hdup Hfree Hin.
  induction l as [|[key u] l IH]; intros d' Hdup Hfree Hin.
  { by apply elem_of_nil in Hin. }
  cbn. fold (set_all l d). destruct (set_all l d) as [d1|] eqn:Hd1; [|done].
  cbn. intros Hs. cbn in Hdup, Hfree.
  apply NoDup_cons in Hdup as [Hkey Hdup].
  apply andb_true_iff in Hfree as [Hhere Hfree].
  apply elem_of_cons in Hin as [[= <- <-]|Hin].
  - rewrite (set_field_plain k v d1 Hk Hid) in Hs. injection Hs as <-.
    by rewrite lookup_insert_eq.
  - rewrite (set_field_frame key u d1 d' k Hs); [by apply IH|].
    intros Hhead. rewrite forallb_forall in Hhere.
    specialize (Hhere (path_of k)). rewrite negb_true_iff in Hhere.
    assert (conflict (path_of key) (path_of k) = true) as Hc.
    { unfold conflict. apply orb_true_iff. right.
      rewrite (path_of_plain k Hk). unfold head_of in Hhead.
      destruct (path_of key) as [|h rest]; cbn [hd] in Hhead.
      { subst k. discriminate Hk. }
      subst h. cbn. by rewrite String.eqb_refl. }
    enough (conflict (path_of key) (path_of k) = false) by congruence.
    apply Hhere. apply list_elem_of_In, list_elem_of_fmap. exists k. split; [done|].
    apply list_elem_of_fmap. by exists (k, v).
Qed.

(** What an accepted [$set] does. *)
Lemma set_fields_spec (set d d' : doc) :
  set_fields set d = Some d' ->
  d' !! "_id" = d !! "_id" /\
  (forall k v, plain_key k = true -> k <> "_id" -> set !! k = Some v ->
     d' !! k = Some v) /\
  (forall k, (forall key, is_Some (set !! key) -> head_of key <> k) ->
     d' !! k = d !! k).
Proof.
  unfold set_fields. destruct (well_formed set) eqn:Hwf; [|done].
  destruct (set_all (map_to_list set) d) as [d1|] eqn:Hall; [|done]. cbn.
  destruct (storable d1); [|done]. intros [= <-].
  apply andb_true_iff in Hwf as [_ Hfree]. split; [|split].
  - by apply (set_all_id (map_to_list set)).
  - intros k v Hk Hid Hv.
    apply (set_all_plain (map_to_list set) d); try done.
    + apply NoDup_fst_map_to_list.
    + by apply elem_of_map_to_list.
  - intros k Hk. apply (set_all_frame (map_to_list set)); [done|].
    intros key v Hin. apply Hk. exists v. by apply elem_of_map_to_list.
Qed.

(** [$set] of one plain field. *)
Lemma set_fields_singleton (k : string) (v : value) (d : doc) :
  plain_key k = true -> k <> "_id" ->
  set_fields {[ k := v ]} d
  = if storable (<[k := v]> d) then Some (<[k := v]> d) else None.
Proof.
  intros Hk Hid. unfold set_fields, well_formed, set_all.
  rewrite map_to_list_singleton. cbn -[path_of set_field].
  rewrite (path_of_plain k Hk), (set_field_plain k v d Hk Hid).
  pose proof Hk as Hk'. unfold plain_key in Hk'.
  rewrite !andb_true_iff, !negb_true_iff in Hk'. destruct Hk' as [[Hk' _] _].
  cbn. by rewrite Hk'.
Qed.

End SetFacts.

(** ** PATCH /services/:id: the merge *)

Lemma update_first_first {A} (p : A -> bool) (f : A -> A) (l : list A) (x : A) :
  List.find p l = Some x ->
  update_first p f l = update_first p (fun _ => f x) l.
Proof.
  induction l as [|y l IH]; [done|]. cbn [List.find update_first].
  destruct (p y); [by intros [= ->]|]. intros Hx. by rewrite IH.
Qed.

Lemma find_has_id (o : ObjectId) (l : list doc) (d : doc) :
  List.find (has_id o) l = Some d -> d !! "_id" = Some (VId o).
Proof.
  intros Hd. apply find_some_elem in Hd as [_ Hd]. unfold has_id in Hd.
  destruct (d !! "_id") as [[]|]; try done. by apply N.eqb_eq in Hd as ->.
Qed.

Lemma has_id_same (o : ObjectId) (d d' : doc) :
  d' !! "_id" = d !! "_id" -> has_id o d' = has_id o d.
Proof. unfold has_id. by intros ->. Qed.

Lemma find_updated (o : ObjectId) (d d' : doc) (l : list doc) :
  List.find (has_id o) l = Some d -> d' !! "_id" = d !! "_id" ->
  List.find (has_id o) (update_first (has_id o) (fun _ => d') l) = Some d'.
Proof.
  intros Hd Hid. rewrite find_update_first, Hd; [done|].
  intros _ _. apply find_some_elem in Hd as [_ Hd].
  by rewrite (has_id_same o d d').
Qed.

(** A key of the payload with a dot is a path: the update
    [{ "reviews.0.rating": 1 }] has no key [reviews] and rewrites the
    reviews of the service. *)
Lemma partial_merge_fails : ~ partial_merge_as_stated.
Proof.
  intros Hrule.
  assert (patch_services_id (H := sample_runtime false) Sample.plumbing_id
            (Some "p@x.com") Cases.deep_update 9%Z Sample.owner
            (Sample.store [Sample.plumbing] [])
          = (Cases.deep_patched.1, Cases.deep_patched.2)) as Hrun
    by (vm_compute; reflexivity).
  specialize (Hrule _ _ _ _ _ _ _ _ _ Sample.plumbing_oid "reviews" Hrun).
  vm_compute in Hrule.
  specialize (Hrule eq_refl eq_refl ltac:(discriminate) eq_refl).
  discriminate Hrule.
Qed.

(** C10 (as the handler has it): for every successful service update, the
    [_id] of the payload is dropped and the service keeps its identifier,
    [updatedAt] is stamped, every other field that the payload names
    plainly is stored, and every stored field that the payload supplies
    neither by its name nor by a path that begins with its name (other
    than [updatedAt]) keeps its value.  Nothing else in the database
    changes. *)
Theorem patch_partial_merge `{Runtime} (id : string) (email : option string)
    (updateData : doc) (now : Date) (decoded : Claims) (st st' : Store)
    (r : Response) :
  patch_services_id id email updateData now decoded st = (r, st') ->
  statusCode r = 200 ->
  exists (o : ObjectId) (service service' : doc),
    new_ObjectId id = Some o /\
    List.find (has_id o) (services st) = Some service /\
    List.find (has_id o) (services st') = Some service' /\
    services st' = update_first (has_id o) (fun _ => service') (services st) /\
    bookings st' = bookings st /\
    service' !! "_id" = service !! "_id" /\
    service' !! "updatedAt" = Some (VDate now) /\
    (forall k v, plain_key k = true -> k <> "_id" -> k <> "updatedAt" ->
       updateData !! k = Some v -> service' !! k = Some v) /\
    (forall k, k <> "updatedAt" ->
       (forall key, is_Some (updateData !! key) -> head_of key <> k) ->
       service' !! k = service !! k).
Proof.
  unfold patch_services_id. async.
  destruct (new_ObjectId id) as [o|]; [|by intros [= <- <-]].
  unfold servicesCollection.findOne.
  destruct (List.find (has_id o) (services st)) as [service|] eqn:Hfind;
    cbn [not_owner]; [|by intros [= <- <-]].
  destruct (negb _); [by intros [= <- <-]|].
  unfold servicesCollection.updateOne. rewrite Hfind.
  set (set := <["updatedAt" := VDate now]> (delete "_id" updateData)).
  destruct (set_fields set service) as [service'|] eqn:Hset;
    [|by intros [= <- <-]].
  intros [= <- <-] _.
  apply set_fields_spec in Hset as (Hid & Hplain & Hframe).
  exists o, service, service'. cbn [services bookings].
  split; [done|]. split; [done|].
  split; [by apply (find_updated o service)|].
  split; [done|]. split; [done|]. split; [done|].
  split; [|split].
  - apply Hplain; [done..|]. unfold set. by rewrite lookup_insert_eq.
  - intros k v Hk Hk1 Hk2 Hv. apply Hplain; [done..|]. unfold set.
    by rewrite lookup_insert_ne, lookup_delete_ne.
  - intros k Hk Hkeys. apply Hframe. intros key. unfold set.
    destruct (decide (key = "updatedAt")) as [->|Hne]; [done|].
    rewrite lookup_insert_ne by done.
    destruct (decide (key = "_id")) as [->|Hne'].
    + rewrite lookup_delete_eq. by intros [? [=]].
    + rewrite lookup_delete_ne by done. apply Hkeys.
Qed.

Lemma patch_partial_merge_witness :
  exists service' : doc,
    List.find (has_id Sample.plumbing_oid) (services Cases.deep_patched.2)
      = Some service' /\
    service' !! "_id" = Some (VId Sample.plumbing_oid) /\
    service' !! "updatedAt" = Some (VDate 9) /\
    service' !! "price" = Some (VNum 35) /\
    service' !! "providerEmail" = Some (VStr "p@x.com").
Proof.
  assert (patch_services_id (H := sample_runtime false) Sample.plumbing_id
            (Some "p@x.com") Cases.deep_update 9%Z Sample.owner
            (Sample.store [Sample.plumbing] [])
          = (Cases.deep_patched.1, Cases.deep_patched.2)) as Hrun
    by (vm_compute; reflexivity).
  assert (statusCode Cases.deep_patched.1 = 200) as Hok
    by (vm_compute; reflexivity).
  destruct (patch_partial_merge _ _ _ _ _ _ _ _ Hrun Hok)
    as (o & service & service' & Ho & Hs & Hs' & _ & _ & Hid & Hup & Hset & Hkeep).
  assert (o = Sample.plumbing_oid) as ->
    by (vm_compute in Ho; injection Ho as <-; reflexivity).
  assert (service = Sample.plumbing) as ->
    by (apply (inj Some); rewrite <- Hs; vm_compute; reflexivity).
  exists service'. split; [exact Hs'|]. split.
  { rewrite Hid. vm_compute. reflexivity. }
  split; [exact Hup|]. split.
  { apply Hset; [reflexivity|discriminate..|]. vm_compute. reflexivity. }
  rewrite Hkeep; [vm_compute; reflexivity|discriminate|].
  intros key [v Hv]. unfold Cases.deep_update in Hv.
  apply lookup_insert_Some in Hv as [[<- _]|[_ Hv]]; [by vm_compute|].
  apply lookup_insert_Some in Hv as [[<- _]|[_ Hv]]; [by vm_compute|].
  apply lookup_singleton_Some in Hv as [<- _]. by vm_compute.
Defined.

(** ** DELETE /services/:id: the cascade *)

(** A successful deletion removes the bookings whose [serviceId] is the
    text of the identifier in the request and no other booking, and then
    the service that the identifier reads as. *)
Lemma delete_cascade `{Runtime} (id : string) (email : option string)
    (decoded : Claims) (st st' : Store) (r : Response) :
  delete_services_id id email decoded st = (r, st') ->
  statusCode r = 200 ->
  exists o : ObjectId,
    new_ObjectId id = Some o /\
    bookings st'
    = List.filter (fun b => negb (bool_decide (serviceId b = Some id)))
        (bookings st) /\
    services st' = remove_first (has_id o) (services st) /\
    journal st' = journal st ++ [DeleteBookings id; DeleteService o].
Proof.
  unfold delete_services_id. async.
  destruct (new_ObjectId id) as [o|]; [|by intros [= <- <-]].
  unfold servicesCollection.findOne.
  destruct (not_owner _ email); [by intros [= <- <-]|].
  cbn. intros [= <- <-] _. exists o. cbn. by rewrite <- app_assoc.
Qed.

(** C7 (where the handler misses): the provider deletes the service
    [64b000000000000000000001] under the identifier
    [64B000000000000000000001], which reads as the same ObjectId.  The
    handler answers success and the service is gone; the booking that
    names the service as [64b000000000000000000001] is still there: the
    bookings are matched by the text of the request.  The bookings are
    deleted before the service is. *)
Theorem delete_cascade_misses :
  sample_ObjectId Cases.capital_id = sample_ObjectId Sample.plumbing_id /\
  services Sample.booked_store = [Sample.plumbing] /\
  Sample.plumbing !! "_id" = VId <$> sample_ObjectId Sample.plumbing_id /\
  Cases.deleted_in_capitals.1 = ok (DeleteResult 1) /\
  services Cases.deleted_in_capitals.2 = [] /\
  bookings Cases.deleted_in_capitals.2 = bookings Sample.booked_store /\
  serviceId <$> bookings Cases.deleted_in_capitals.2
    = [Some Sample.plumbing_id] /\
  journal Cases.deleted_in_capitals.2
    = [DeleteBookings Cases.capital_id; DeleteService Sample.plumbing_oid].
Proof. do 7 (split; [vm_compute; reflexivity|]). vm_compute; reflexivity. Qed.

(** ** PATCH and DELETE /services/:id: who may change a service *)

(** Neither handler reads the decoded claims. *)
Lemma patch_any_token `{Runtime} (id : string) (email : option string)
    (updateData : doc) (now : Date) (c1 c2 : Claims) (st : Store) :
  patch_services_id id email updateData now c1 st
  = patch_services_id id email updateData now c2 st.
Proof. reflexivity. Qed.

Lemma delete_any_token `{Runtime} (id : string) (email : option string)
    (c1 c2 : Claims) (st : Store) :
  delete_services_id id email c1 st = delete_services_id id email c2 st.
Proof. reflexivity. Qed.

(** They answer Forbidden exactly when the service is not there or its
    provider email is not the email of the query string. *)
Lemma patch_forbidden_iff `{Runtime} (id : string) (email : option string)
    (updateData : doc) (now : Date) (decoded : Claims) (st : Store) :
  error_kind (patch_services_id id email updateData now decoded st).1
    = Some Forbidden
  <-> exists o, new_ObjectId id = Some o /\
        not_owner (List.find (has_id o) (services st)) email = true.
Proof.
  unfold patch_services_id. async.
  destruct (new_ObjectId id) as [o|]; cbn; [|split; [done|by intros (? & ? & _)]].
  unfold servicesCollection.findOne.
  destruct (not_owner _ email) eqn:Hn; cbn.
  - split; [eauto|done].
  - split; [|intros (o' & [= <-] & Ho); congruence].
    unfold servicesCollection.updateOne.
    destruct (List.find (has_id o) (services st)); [|by destruct (well_formed _)].
    by destruct (set_fields _ _).
Qed.

Lemma delete_forbidden_iff `{Runtime} (id : string) (email : option string)
    (decoded : Claims) (st : Store) :
  error_kind (delete_services_id id email decoded st).1 = Some Forbidden
  <-> exists o, new_ObjectId id = Some o /\
        not_owner (List.find (has_id o) (services st)) email = true.
Proof.
  unfold delete_services_id. async.
  destruct (new_ObjectId id) as [o|]; cbn; [|split; [done|by intros (? & ? & _)]].
  unfold servicesCollection.findOne.
  destruct (not_owner _ email) eqn:Hn; cbn.
  - split; [eauto|done].
  - split; [done|]. intros (o' & [= <-] & Ho). congruence.
Qed.

(** C2 (where the handlers miss): the ownership test of PATCH and DELETE
    compares the stored provider email with the [email] of the query
    string, never with the decoded identity.  With the token of [m@x.com]
    and [?email=p@x.com] the update and the deletion of a service of
    [p@x.com] proceed, and the provider's own token without the query email
    is answered Forbidden. *)
Theorem ownership_by_query_email :
  verifyJWT (H := sample_runtime false) (Some "Bearer m@x.com")
    = inl Sample.mallory /\
  Sample.plumbing !! "providerEmail" = Some (VStr "p@x.com") /\
  Sample.hijacked_patch.1 = ok (UpdateResult 1) /\
  (.!! "price") <$> services Sample.hijacked_patch.2 = [Some (VNum 35)] /\
  Sample.hijacked_delete.1 = ok (DeleteResult 1) /\
  services Sample.hijacked_delete.2 = [] /\
  bookings Sample.hijacked_delete.2 = [] /\
  verifyJWT (H := sample_runtime false) (Some "Bearer p@x.com")
    = inl Sample.owner /\
  error_kind Sample.unnamed_patch.1 = Some Forbidden.
Proof. do 8 (split; [vm_compute; reflexivity|]). vm_compute; reflexivity. Qed.

(** ** POST /bookings *)

Lemma invalid_operation (message : string) :
  error_kind (failure 400 message) = Some InvalidOperation.
Proof. reflexivity. Qed.



(** C4: for every create-booking request where the provider email of the
    referenced service equals the customer email of the request, the
    operation fails with InvalidOperation (you cannot book your own
    service) and the database is unchanged. *)
Theorem no_self_booking `{Runtime} (booking : Booking) (now : Date)
    (fresh : ObjectId) (decoded : Claims) (st : Store)
    (sid : string) (o : ObjectId) (service : doc) :
  serviceId booking = Some sid ->
  new_ObjectId sid = Some o ->
  List.find (has_id o) (services st) = Some service ->
  service !! "providerEmail" = VStr <$> userEmail booking ->
  exists r,
    post_bookings booking now fresh decoded st = (r, st) /\
    error_kind r = Some InvalidOperation /\
    body r = Failure "You cannot book your own service".
Proof.
  intros Hsid Ho Hfind Hp. unfold post_bookings. async.
  rewrite Hsid, Ho. unfold servicesCollection.findOne. rewrite Hfind, Hp.
  destruct (userEmail booking) as [e|]; cbn; [rewrite String.eqb_refl|]; eauto.
Qed.

Lemma no_self_booking_witness :
  exists r,
    post_bookings (H := sample_runtime false) (Sample.request "p@x.com") 7%Z 99%N
      Sample.owner (Sample.store [Sample.plumbing] [])
    = (r, Sample.store [Sample.plumbing] []) /\
    error_kind r = Some InvalidOperation /\
    body r = Failure "You cannot book your own service".
Proof.
  apply (no_self_booking (H := sample_runtime false) (Sample.request "p@x.com")
           7%Z 99%N Sample.owner (Sample.store [Sample.plumbing] [])
           Sample.plumbing_id Sample.plumbing_oid Sample.plumbing);
    reflexivity.
Defined.




(** C8: for every pair of valid bearer credentials, whatever emails they
    decode to, a create-booking request with the same body has the same
    outcome; the customer email of a stored booking is the one of the
    body. *)
Theorem booking_ignores_identity `{Runtime} (a1 a2 : option string)
    (c1 c2 : Claims) (booking : Booking) (now : Date) (fresh : ObjectId)
    (st : Store) :
  verifyJWT a1 = inl c1 ->
  verifyJWT a2 = inl c2 ->
  protected a1 (post_bookings booking now fresh) st
  = protected a2 (post_bookings booking now fresh) st /\
  (forall id st',
     protected a1 (post_bookings booking now fresh) st
     = (ok (InsertOneResult id), st') ->
     exists b, bookings st' = bookings st ++ [b] /\
               userEmail b = userEmail booking).
Proof.
  intros H1 H2. unfold protected. rewrite H1, H2. split; [done|].
  intros id st'. unfold post_bookings. async.
  destruct (serviceId booking) as [sid|]; [|done].
  destruct (new_ObjectId sid) as [o|]; [|done].
  unfold servicesCollection.findOne.
  destruct (List.find (has_id o) (services st)) as [service|]; [|done].
  destruct (Js.strict_eq _ _); [done|].
  unfold bookingsCollection.findOne.
  destruct (List.find _ (bookings st)); [done|].
  unfold bookingsCollection.insertOne. cbn [b_id].
  destruct (id_accepted _ _ && storable _); [|done].
  intros [= <- <-]. cbn. eauto.
Qed.

Lemma booking_ignores_identity_witness :
  protected (H := sample_runtime false) (Some "Bearer c@x.com")
    (post_bookings (H := sample_runtime false) (Sample.request "c@x.com") 7%Z 99%N)
    (Sample.store [Sample.plumbing] [])
  = protected (H := sample_runtime false) (Some "Bearer m@x.com")
      (post_bookings (H := sample_runtime false) (Sample.request "c@x.com") 7%Z 99%N)
      (Sample.store [Sample.plumbing] []).
Proof.
  apply (booking_ignores_identity (H := sample_runtime false)
           (Some "Bearer c@x.com") (Some "Bearer m@x.com")
           Sample.customer Sample.mallory);
    reflexivity.
Defined.

(** ** POST /services/:id/review *)

Lemma forbidden (message : string) :
  error_kind (failure 403 message) = Some Forbidden.
Proof. reflexivity. Qed.




(** [$push] appends the review and changes no other field. *)
Lemma push_review_spec (review : value) (d d' : doc) :
  servicesCollection.push_review review d = Some d' ->
  exists l,
    (d !! "reviews" = Some (VArr l) \/ d !! "reviews" = None /\ l = []) /\
    d' = <["reviews" := VArr (l ++ [review])]> d.
Proof.
  unfold servicesCollection.push_review.
  destruct (d !! "reviews") as [[]|] eqn:Hr; intros [= <-].
  - eexists. split; [by left|done].
  - exists []. split; [by right|done].
Qed.

Lemma push_review_id (review : value) (d d' : doc) :
  servicesCollection.push_review review d = Some d' ->
  d' !! "_id" = d !! "_id".
Proof.
  intros (l & _ & ->)%push_review_spec. by rewrite lookup_insert_ne.
Qed.

(** The runs of the review handler: it leaves the database as it was and
    answers an error, or it pushes the review and stops there, or it pushes
    the review and sets the average. *)
Lemma review_run `{Runtime} (file : SourceFile) (sid : string) (payload : doc)
    (now : Date) (decoded : Claims) (st st' : Store) (r : Response) :
  post_services_id_review file sid payload now decoded st = (r, st') ->
  (st' = st /\ statusCode r <> 200) \/
  exists (o : ObjectId) (d d' : doc),
    let review := new_review (email decoded) payload now in
    new_ObjectId sid = Some o /\
    List.find (has_id o) (services st) = Some d /\
    hasReviewed d (email decoded) = Some false /\
    servicesCollection.push_review review d = Some d' /\
    ((st' = pushed o review d' st /\
      (statusCode r = 200 ->
       exists v, updated_reviews file (answered d') = Some v /\
                 new_average v = Some None)) \/
     (exists v avg,
        updated_reviews file (answered d') = Some v /\
        new_average v = Some (Some avg) /\
        r = ok (Success "Review added successfully") /\
        st' = averaged o avg d' (pushed o review d' st))).
Proof.
  unfold post_services_id_review. async.
  unfold bookingsCollection.findOne.
  destruct (List.find _ (bookings st)) as [b|] eqn:Hb;
    [|intros [= <- <-]; by left].
  destruct (new_ObjectId sid) as [o|] eqn:Ho; [|intros [= <- <-]; by left].
  unfold servicesCollection.findOne.
  destruct (List.find (has_id o) (services st)) as [d|] eqn:Hd;
    [|intros [= <- <-]; by left].
  destruct (hasReviewed d (email decoded)) as [[]|] eqn:Hrev;
    [intros [= <- <-]; by left| |intros [= <- <-]; by left].
  unfold servicesCollection.findOneAndUpdate. rewrite Hd.
  destruct (servicesCollection.push_review _ d) as [d'|] eqn:Hpush;
    [|intros [= <- <-]; by left].
  destruct (storable d'); [|intros [= <- <-]; by left].
  fold (answered d').
  fold (pushed o (new_review (email decoded) payload now) d' st).
  set (st1 := pushed o (new_review (email decoded) payload now) d' st).
  intros Hrun. right. exists o, d, d'. cbn zeta.
  do 4 (split; [done|]).
  destruct (updated_reviews file (answered d')) as [v|] eqn:Hv;
    [|injection Hrun as <- <-; left; by split].
  destruct (new_average v) as [[avg|]|] eqn:Havg.
  - assert (List.find (has_id o) (services st1) = Some d') as Hd'
      by (apply (find_updated o d); [done|by apply push_review_id in Hpush]).
    unfold servicesCollection.updateOne in Hrun. rewrite Hd' in Hrun.
    rewrite set_fields_singleton in Hrun by done.
    destruct (storable (<["averageRating" := VNum avg]> d')).
    + right. exists v, avg. injection Hrun as <- <-. by repeat split.
    + left. injection Hrun as <- <-. by split.
  - left. injection Hrun as <- <-. split; [done|]. eauto.
  - left. injection Hrun as <- <-. by split.
Qed.

(** *** One review for each reviewer *)

Lemma invalid_review :
  error_kind (failure 400 "You have already reviewed this service")
  = Some InvalidOperation.
Proof. reflexivity. Qed.











(** *** The average rating *)

(** A new service has no review and the rating 4.5. *)
Lemma post_services_seed `{Runtime} (payload : doc) (now : Date)
    (fresh : ObjectId) (decoded : Claims) (st st' : Store) (r : Response) :
  post_services payload now fresh decoded st = (r, st') ->
  statusCode r = 200 ->
  exists service,
    services st' = services st ++ [service] /\
    service !! "averageRating" = Some (VNum 4.5) /\
    service !! "reviews" = Some (VArr []).
Proof.
  unfold post_services. async. unfold servicesCollection.insertOne.
  destruct (id_accepted _ _ && storable _); [|by intros [= <- <-]].
  intros [= <- <-] _. eexists. split; [done|].
  split.
  - do 2 (rewrite lookup_insert_ne by done). by rewrite lookup_insert_eq.
  - rewrite lookup_insert_ne by done. by rewrite lookup_insert_eq.
Qed.

Lemma ratings_of_length (reviews : list value) (ratings : list float) :
  ratings_of reviews = Some ratings -> length ratings = length reviews.
Proof.
  revert ratings. induction reviews as [|r reviews IH]; intros ratings.
  - by intros [= <-].
  - cbn [ratings_of]. destruct (Js.get _ _) as [[[]|]|]; try done.
    destruct (ratings_of reviews) as [l|]; [|done]. intros [= <-].
    cbn. by rewrite (IH l).
Qed.

(** On reviews with numbers as ratings, [reduce] is their sum. *)
Lemma reduce_rating_sum `{Runtime} (reviews : list value) (ratings : list float)
    (sum : float) :
  ratings_of reviews = Some ratings ->
  reduce_rating reviews (PNum sum) = Some (PNum (fold_left PrimFloat.add ratings sum)).
Proof.
  revert ratings sum. induction reviews as [|r reviews IH]; intros ratings sum.
  - by intros [= <-].
  - cbn [ratings_of reduce_rating].
    destruct (Js.get _ _) as [[[]|]|]; try done.
    destruct (ratings_of reviews) as [l|] eqn:Hl; [|done]. intros [= <-].
    cbn. by apply IH.
Qed.

Lemma new_average_list `{Runtime} (reviews : list value) (v : option float) :
  reviews <> [] ->
  new_average (Some (VArr reviews)) = Some v ->
  exists total,
    reduce_rating reviews (PNum 0) = Some total /\
    v = Some (Js.div total (PNum (Js.of_nat (length reviews)))).
Proof.
  intros Hne. unfold new_average. cbn.
  destruct reviews as [|r reviews]; [done|]. cbn [length Nat.ltb Nat.leb].
  destruct (reduce_rating _ _) as [total|]; cbn; [|done].
  intros [= <-]. eauto.
Qed.

Lemma updated_reviews_read `{Runtime} (file : SourceFile) (d' : doc) :
  reads_result file ->
  updated_reviews file (answered d') = Some (d' !! "reviews").
Proof.
  unfold reads_result, answered. by destruct file; intros ->.
Qed.

(** X25: with the file that reads the result as the driver gives it, a
    successful review leaves the service with the review appended and with
    the mean of all its ratings as [averageRating]. *)
Lemma review_average_recomputed `{Runtime} (file : SourceFile) (sid : string)
    (payload : doc) (now : Date) (decoded : Claims) (st st' : Store)
    (r : Response) :
  reads_result file ->
  post_services_id_review file sid payload now decoded st = (r, st') ->
  statusCode r = 200 ->
  exists (o : ObjectId) (service : doc) (reviews : list value) (total : prim),
    new_ObjectId sid = Some o /\
    List.find (has_id o) (services st') = Some service /\
    service !! "reviews" = Some (VArr reviews) /\
    last reviews = Some (new_review (email decoded) payload now) /\
    reduce_rating reviews (PNum 0) = Some total /\
    service !! "averageRating"
      = Some (VNum (Js.div total (PNum (Js.of_nat (length reviews))))) /\
    (forall ratings, ratings_of reviews = Some ratings ->
       service !! "averageRating" = Some (VNum (mean ratings))).
Proof.
  intros Hread Hrun Hok.
  apply review_run in Hrun
    as [[_ Hr]|(o & d & d' & Ho & Hd & _ & Hpush & Hrun)]; [done|].
  rewrite (updated_reviews_read file d' Hread) in Hrun.
  pose proof (push_review_id _ _ _ Hpush) as Hid.
  apply push_review_spec in Hpush as (l & _ & Hd').
  assert (d' !! "reviews"
          = Some (VArr (l ++ [new_review (email decoded) payload now]))) as Hl
    by (by rewrite Hd', lookup_insert_eq).
  assert (l ++ [new_review (email decoded) payload now] <> []) as Hne
    by (by destruct l).
  destruct Hrun as [[_ Hskip]|(v & avg & [= <-] & Havg & _ & ->)].
  - destruct (Hskip Hok) as (v & [= <-] & Hv). rewrite Hl in Hv.
    by apply new_average_list in Hv as (? & _ & ?).
  - rewrite Hl in Havg.
    apply new_average_list in Havg as (total & Htotal & [= ->]); [|done].
    exists o, (<["averageRating" :=
                   VNum (Js.div total (PNum (Js.of_nat (length
                     (l ++ [new_review (email decoded) payload now])))))]> d'),
      (l ++ [new_review (email decoded) payload now]), total.
    split; [done|]. split.
    { cbn. apply (find_updated o d').
      - by apply (find_updated o d).
      - by rewrite lookup_insert_ne. }
    split; [by rewrite lookup_insert_ne|].
    split; [by rewrite last_snoc|]. split; [done|].
    split; [by rewrite lookup_insert_eq|].
    intros ratings Hr. rewrite lookup_insert_eq.
    rewrite (reduce_rating_sum _ _ _ Hr) in Htotal. injection Htotal as <-.
    unfold mean. by rewrite (ratings_of_length _ _ Hr).
Qed.

Lemma review_average_recomputed_witness :
  exists service,
    List.find (has_id Sample.plumbing_oid)
      (services Sample.index_js_on_document.2) = Some service /\
    service !! "averageRating" = Some (VNum (mean [5%float])).
Proof.
  assert (post_services_id_review (H := sample_runtime false) IndexJs
            Sample.plumbing_id {[ "rating" := VNum 5 ]} 5%Z Sample.customer
            Sample.booked_store
          = (Sample.index_js_on_document.1, Sample.index_js_on_document.2))
    as Hrun by (vm_compute; reflexivity).
  assert (statusCode Sample.index_js_on_document.1 = 200) as Hok
    by (vm_compute; reflexivity).
  destruct (review_average_recomputed (H := sample_runtime false) IndexJs
              _ _ _ _ _ _ _ eq_refl Hrun Hok)
    as (o & service & reviews & total & Ho & Hfind & Hrev & _ & _ & _ & Hmean).
  assert (o = Sample.plumbing_oid) as ->
    by (vm_compute in Ho; injection Ho as <-; reflexivity).
  exists service. split; [exact Hfind|]. apply Hmean.
  assert (service
          = <["averageRating" := VNum 5]>
              (<["reviews" := VArr [Sample.review "c@x.com" 5]]> Sample.plumbing))
    as Hs by (apply (inj Some); rewrite <- Hfind; vm_compute; reflexivity).
  rewrite Hs in Hrev. vm_compute in Hrev. injection Hrev as <-.
  vm_compute. reflexivity.
Defined.

(** X26: when index.js gets a ModifyResult, [updatedService.reviews] is
    undefined: no request changes an average. *)
Lemma index_js_never_averages `{Runtime} (sid : string) (payload : doc)
    (now : Date) (decoded : Claims) (st st' : Store) (r : Response) :
  includeResultMetadata = true ->
  post_services_id_review IndexJs sid payload now decoded st = (r, st') ->
  forall d', d' ∈ services st' ->
    exists d, d ∈ services st /\ d' !! "averageRating" = d !! "averageRating".
Proof.
  intros Hmeta Hrun.
  apply review_run in Hrun
    as [[-> _]|(o & d & d' & Ho & Hd & _ & Hpush & Hrun)]; [by eauto|].
  unfold answered in Hrun. rewrite Hmeta in Hrun. cbn in Hrun.
  destruct Hrun as [[-> _]|(v & avg & [= <-] & Havg & _)]; [|done].
  intros x Hx. apply elem_of_update_first in Hx as [Hx|(y & _ & _ & ->)];
    [by eauto|].
  exists d. split; [by apply find_some_elem in Hd as [Hd _]|].
  apply push_review_spec in Hpush as (l & _ & ->). by rewrite lookup_insert_ne.
Qed.

Lemma index_js_never_averages_witness :
  Forall (fun d' : doc =>
            exists d, d ∈ services Sample.booked_store /\
                      d' !! "averageRating" = d !! "averageRating")
    (services Sample.index_js_on_metadata.2).
Proof.
  apply Forall_forall.
  apply (index_js_never_averages (H := sample_runtime true)
           Sample.plumbing_id {[ "rating" := VNum 5 ]} 5%Z Sample.customer
           Sample.booked_store Sample.index_js_on_metadata.2
           Sample.index_js_on_metadata.1).
  - reflexivity.
  - vm_compute. reflexivity.
Defined.

(** X27: when server.js gets the document, [updatedService.value] is a
    field of the service: without such a field the read throws after the
    review is pushed, so that no review request is answered with success,
    and no request changes an average. *)
Lemma server_js_never_averages `{Runtime} (sid : string) (payload : doc)
    (now : Date) (decoded : Claims) (st st' : Store) (r : Response) :
  includeResultMetadata = false ->
  (forall d, d ∈ services st -> d !! "value" = None) ->
  post_services_id_review ServerJs sid payload now decoded st = (r, st') ->
  statusCode r <> 200 /\
  forall d', d' ∈ services st' ->
    exists d, d ∈ services st /\ d' !! "averageRating" = d !! "averageRating".
Proof.
  intros Hmeta Hvalue Hrun.
  apply review_run in Hrun
    as [[-> Hr]|(o & d & d' & Ho & Hd & _ & Hpush & Hrun)]; [by eauto|].
  apply find_some_elem in Hd as [Hd _].
  apply push_review_spec in Hpush as (l & _ & ->).
  unfold answered in Hrun. rewrite Hmeta in Hrun. cbn in Hrun.
  rewrite lookup_insert_ne, (Hvalue d Hd) in Hrun by done. cbn in Hrun.
  destruct Hrun as [[-> Hr]|(v & avg & [=] & _)]. split.
  - intros Hok. by destruct (Hr Hok) as (? & [=] & _).
  - intros x Hx. apply elem_of_update_first in Hx as [Hx|(y & _ & _ & ->)];
      [by eauto|].
    exists d. split; [done|]. by rewrite lookup_insert_ne.
Qed.

Lemma server_js_never_averages_witness :
  statusCode Sample.server_js_on_document.1 <> 200.
Proof.
  apply (server_js_never_averages (H := sample_runtime false)
           Sample.plumbing_id {[ "rating" := VNum 5 ]} 5%Z Sample.customer
           Sample.booked_store Sample.server_js_on_document.2
           Sample.server_js_on_document.1).
  - reflexivity.
  - intros d Hd. apply list_elem_of_singleton in Hd as ->.
    vm_compute. reflexivity.
  - vm_compute. reflexivity.
Defined.

(** C1 (where the handlers miss): the two files read the result of
    [findOneAndUpdate] in two shapes, and the driver gives one.  The
    customer [c@x.com], who has a pending booking, rates a service without
    reviews 5, so that the mean is 5.  When the driver gives a
    ModifyResult, the handler of index.js answers success with the review
    stored and [averageRating] still 4.5; when it gives the document, the
    handler of server.js stores the review, leaves [averageRating] at 4.5
    and answers 500.  With the document, index.js stores the mean. *)
Theorem review_average_stale :
  ratings_of [Sample.review "c@x.com" 5] = Some [5%float] /\
  mean [5%float] = 5%float /\
  (Sample.index_js_on_metadata.1 = ok (Success "Review added successfully") /\
   (fun d => (d !! "reviews", d !! "averageRating"))
     <$> services Sample.index_js_on_metadata.2
   = [(Some (VArr [Sample.review "c@x.com" 5]), Some (VNum 4.5))]) /\
  (Sample.server_js_on_document.1 = failure 500 "Failed to add review" /\
   (fun d => (d !! "reviews", d !! "averageRating"))
     <$> services Sample.server_js_on_document.2
   = [(Some (VArr [Sample.review "c@x.com" 5]), Some (VNum 4.5))]) /\
  (Sample.index_js_on_document.1 = ok (Success "Review added successfully") /\
   (fun d => (d !! "reviews", d !! "averageRating"))
     <$> services Sample.index_js_on_document.2
   = [(Some (VArr [Sample.review "c@x.com" 5]), Some (VNum 5))]).
Proof.
  do 2 (split; [vm_compute; reflexivity|]).
  split; [|split]; (split; vm_compute; reflexivity).
Qed.

(** * The other routes and further properties *)

(** ** GET /services: what the listing holds *)

(** X1: a listing never changes the database; every document it answers
    is a stored service that satisfies the query; without [limit] the
    answer holds each such service as often as the collection does. *)
Theorem listing_reads `{Runtime} (p : ListParams) (st st' : Store)
    (docs : list doc) :
  get_services p st = (ok (Documents docs), st') ->
  st' = st /\
  exists matches,
    query_matches (build_query p) = Some matches /\
    (forall d, d ∈ docs -> d ∈ services st /\ matches d = true) /\
    (given (limit p) = false -> docs ≡ₚ List.filter matches (services st)).
Proof.
  intros Hget. split.
  - revert Hget. unfold get_services. async.
    destruct (query_matches (build_query p)); cbn; [|by intros [= _ <-]].
    destruct (apply_limit p _); cbn; by intros [= _ <-].
  - apply get_services_docs in Hget as (matches & Hq & Hl).
    exists matches. split; [done|].
    assert (apply_sort p (List.filter matches (services st))
            ≡ₚ List.filter matches (services st)) as Hsort.
    { unfold apply_sort. repeat case_bool_decide; by rewrite ?sort_by_perm. }
    split.
    + intros d Hd.
      assert (d ∈ List.filter matches (services st)) as Hin.
      { rewrite <- Hsort. revert Hl. unfold apply_limit.
        destruct (given (limit p)); [|by intros [= <-]].
        destruct (parseInt _) as [[|n|n]|]; try done; [by intros [= <-]| |];
          destruct (_ <? _)%Z; intros [= <-]; by eapply subseteq_take. }
      apply list_elem_of_In, List.filter_In in Hin as [Hin Hm].
      by rewrite list_elem_of_In.
    + intros Hno. revert Hl. unfold apply_limit. rewrite Hno.
      by intros [= <-].
Qed.

Lemma listing_reads_witness :
  [Sample.good; Sample.poor] ≡ₚ [Sample.poor; Sample.good].
Proof.
  destruct (listing_reads (H := sample_runtime false) Sample.by_rating
              (Sample.store [Sample.poor; Sample.good] [])
              (Sample.store [Sample.poor; Sample.good] [])
              [Sample.good; Sample.poor])
    as (_ & matches & Hq & _ & Hperm).
  - vm_compute. reflexivity.
  - injection Hq as <-. apply Hperm. reflexivity.
Defined.



(** ** GET /top-rated-services *)

Lemma sorted_app_cross {A} (R : A -> A -> Prop) (l1 l2 : list A) :
  StronglySorted R (l1 ++ l2) ->
  forall x y, x ∈ l1 -> y ∈ l2 -> R x y.
Proof.
  induction l1 as [|a l1 IH]; cbn; intros Hs x y Hx Hy.
  - by apply elem_of_nil in Hx.
  - apply StronglySorted_inv in Hs as [Hs Ha].
    apply elem_of_cons in Hx as [->|Hx]; [|by apply IH].
    rewrite Forall_forall in Ha. apply Ha. apply elem_of_app. by right.
Qed.

(** X3: the top-rated listing always answers, with at most six stored
    services, each rated 4 or more, in descending order of rating; it
    leaves out a service rated 4 or more only when each one it answers is
    rated at least as high, and leaves none out when there are at most
    six; the database is unchanged. *)
Theorem top_rated `{Runtime} (st : Store) :
  let eligible (d : doc) := at_least 4 (d !! "averageRating") in
  exists docs,
    get_top_rated_services st = (ok (Documents docs), st) /\
    length docs <= 6 /\
    StronglySorted (fun a b => descending "averageRating" a b = true) docs /\
    (forall d, d ∈ docs -> d ∈ services st /\ eligible d = true) /\
    (length (List.filter eligible (services st)) <= 6 ->
     docs ≡ₚ List.filter eligible (services st)) /\
    (forall d d', d ∈ services st -> eligible d = true -> d ∉ docs ->
       d' ∈ docs -> descending "averageRating" d' d = true).
Proof.
  intros eligible. unfold get_top_rated_services. async.
  unfold servicesCollection.find. cbn.
  set (found := List.filter _ (services st)).
  set (sorted := sort_by (descending "averageRating") found).
  assert (sorted ≡ₚ found) as Hperm by apply sort_by_perm.
  assert (StronglySorted (fun a b => descending "averageRating" a b = true) sorted)
    as Hsorted by apply descending_sorted.
  exists (take 6 sorted). split; [done|]. split; [rewrite length_take; lia|].
  split; [by apply StronglySorted_take|]. split; [|split].
  - intros d Hd. apply subseteq_take in Hd. rewrite Hperm in Hd.
    apply list_elem_of_In, List.filter_In in Hd as [Hd He].
    by rewrite list_elem_of_In.
  - intros Hlen. rewrite take_ge; [done|]. by rewrite Hperm.
  - intros d d' Hd He Hout Hin.
    assert (d ∈ sorted) as Hds.
    { rewrite Hperm. apply list_elem_of_In, List.filter_In.
      by rewrite <- list_elem_of_In. }
    rewrite <- (take_drop 6 sorted) in Hds, Hsorted.
    apply elem_of_app in Hds as [Hds|Hds]; [done|].
    by apply (sorted_app_cross _ _ _ Hsorted).
Qed.

(** ** GET /services/:id *)

Lemma find_has_id_none (o : ObjectId) (l : list doc) :
  List.find (has_id o) l = None <->
  forall d, d ∈ l -> d !! "_id" <> Some (VId o).
Proof.
  rewrite find_none_elem. split; intros Hn d Hd.
  - intros Hid. specialize (Hn d Hd). unfold has_id in Hn.
    rewrite Hid, N.eqb_refl in Hn. done.
  - specialize (Hn d Hd). unfold has_id.
    destruct (d !! "_id") as [[]|]; try done.
    destruct (N.eqb_spec o o0) as [->|]; done.
Qed.

(** X4: GET /services/:id answers a document exactly when the identifier
    is well formed and some service has it as [_id], and the document is
    such a service; it answers NotFound exactly when the identifier is
    well formed and no service has it, and Internal exactly when the
    identifier is not well formed; it never changes the database. *)
Theorem service_by_id `{Runtime} (id : string) (st : Store) :
  (get_services_id id st).2 = st /\
  (forall d, (get_services_id id st).1 = inl d ->
     exists o, new_ObjectId id = Some o /\ d ∈ services st /\
               d !! "_id" = Some (VId o)) /\
  ((exists d, (get_services_id id st).1 = inl d) <->
   exists o d, new_ObjectId id = Some o /\ d ∈ services st /\
               d !! "_id" = Some (VId o)) /\
  ((exists r, (get_services_id id st).1 = inr r /\ error_kind r = Some NotFound) <->
   exists o, new_ObjectId id = Some o /\
             forall d, d ∈ services st -> d !! "_id" <> Some (VId o)) /\
  ((exists r, (get_services_id id st).1 = inr r /\ error_kind r = Some Internal) <->
   new_ObjectId id = None).
Proof.
  unfold get_services_id. async.
  destruct (new_ObjectId id) as [o|]; cbn.
  - unfold servicesCollection.findOne.
    destruct (List.find (has_id o) (services st)) as [d|] eqn:Hd; cbn.
    + pose proof (find_has_id _ _ _ Hd) as Hid.
      apply find_some_elem in Hd as [Hin _].
      split; [done|]. split; [intros ? [= <-]; eauto|].
      split; [split; eauto|]. split.
      * split; [by intros (? & [=] & _)|].
        intros (o' & [= <-] & Hn). by destruct (Hn d Hin).
      * split; [by intros (? & [=] & _)|done].
    + pose proof (proj1 (find_has_id_none o (services st)) Hd) as Hn.
      clear Hd. rename Hn into Hd.
      split; [done|]. split; [done|]. split.
      * split; [by intros (? & [=])|].
        intros (o' & d & [= <-] & Hin & Hid). by destruct (Hd d Hin).
      * split; [split; eauto|].
        split; [by intros (? & [= <-] & [=])|done].
  - split; [done|]. split; [done|]. split.
    + split; [by intros (? & [=])|by intros (? & ? & [=] & _)].
    + split; [split; [by intros (? & [= <-] & [=])|by intros (? & [=] & _)]|].
      split; eauto.
Qed.

(** ** POST /services *)

Lemma accepted_not_found (o : ObjectId) (l : list doc) :
  id_accepted (VId o) ((.!! "_id") <$> l) = true ->
  List.find (has_id o) l = None.
Proof.
  unfold id_accepted. rewrite negb_true_iff. intros Hn.
  apply find_none_elem. intros d Hd.
  destruct (has_id o d) eqn:Hid; [|done].
  assert (existsb (fun v => if v is Some v then Bson.eqb v (VId o) else false)
            ((.!! "_id") <$> l) = true) as He; [|congruence].
  apply List.existsb_exists. exists (d !! "_id"). split.
  - apply list_elem_of_In, list_elem_of_fmap. eauto.
  - unfold has_id in Hid. destruct (d !! "_id") as [[]|]; try done.
    by rewrite BsonFacts.eqb_id, N.eqb_sym.
Qed.

Lemma find_app_last {A} (p : A -> bool) (l : list A) (x : A) :
  List.find p l = None -> p x = true -> List.find p (l ++ [x]) = Some x.
Proof.
  induction l as [|y l IH]; cbn; [by intros _ ->|].
  destruct (p y); [done|]. apply IH.
Qed.

(** X5: POST /services stores the body with the creation time, the rating
    4.5 and no review, whatever rating and reviews the client sends; the
    other fields are stored as sent, the [_id] is that of the body, or the
    new one when the body has none or [null]; nothing else changes.  When
    the document is refused, the answer is Internal and nothing is
    stored. *)
Theorem create_service `{Runtime} (payload : doc) (now : Date)
    (fresh : ObjectId) (decoded : Claims) (st st' : Store) (r : Response) :
  post_services payload now fresh decoded st = (r, st') ->
  let id := assigned_id (payload !! "_id") fresh in
  bookings st' = bookings st /\
  (statusCode r = 200 ->
   r = ok (InsertOneResult id) /\
   id_accepted id ((.!! "_id") <$> services st) = true /\
   exists service,
     services st' = services st ++ [service] /\
     service !! "_id" = Some id /\
     service !! "createdAt" = Some (VDate now) /\
     service !! "averageRating" = Some (VNum 4.5) /\
     service !! "reviews" = Some (VArr []) /\
     forall k, k <> "_id" -> k <> "createdAt" -> k <> "averageRating" ->
               k <> "reviews" -> service !! k = payload !! k) /\
  (statusCode r <> 200 -> error_kind r = Some Internal /\ st' = st).
Proof.
  unfold post_services. async. unfold servicesCollection.insertOne.
  do 3 (rewrite lookup_insert_ne by done). cbn zeta.
  destruct (id_accepted _ _) eqn:Hacc; cbn [andb];
    [destruct (storable _)|]; intros [= <- <-]; try done.
  split; [done|]. split; [|done]. intros _.
  split; [done|]. split; [done|]. eexists. split; [done|].
  split; [by rewrite lookup_insert_eq|].
  split; [do 3 (rewrite lookup_insert_ne by done); by rewrite lookup_insert_eq|].
  split; [do 2 (rewrite lookup_insert_ne by done); by rewrite lookup_insert_eq|].
  split; [rewrite lookup_insert_ne by done; by rewrite lookup_insert_eq|].
  intros k ? ? ? ?. by do 4 (rewrite lookup_insert_ne by done).
Qed.

Lemma create_service_witness :
  exists service,
    services Cases.created.2 = [Sample.plumbing; service] /\
    service !! "averageRating" = Some (VNum 4.5) /\
    service !! "reviews" = Some (VArr []).
Proof.
  assert (post_services (H := sample_runtime false) Cases.new_service 3%Z 9%N
            Sample.owner (Sample.store [Sample.plumbing] [])
          = (Cases.created.1, Cases.created.2)) as Hrun
    by (vm_compute; reflexivity).
  destruct (create_service (H := sample_runtime false) _ _ _ _ _ _ _ Hrun)
    as (_ & Hc & _).
  destruct Hc as (_ & _ & service & Hs & _ & _ & Hr & Hv & _);
    [vm_compute; reflexivity|].
  exists service. split; [exact Hs|]. split; [exact Hr | exact Hv].
Defined.

(** X6: a service created with the new ObjectId as its [_id] is found by
    GET /services/:id under every identifier that reads as that ObjectId,
    with the rating 4.5 and no review. *)
Theorem created_service_found `{Runtime} (payload : doc) (now : Date)
    (fresh : ObjectId) (decoded : Claims) (st st' : Store) (r : Response)
    (id : string) :
  assigned_id (payload !! "_id") fresh = VId fresh ->
  new_ObjectId id = Some fresh ->
  post_services payload now fresh decoded st = (r, st') ->
  statusCode r = 200 ->
  exists service,
    get_services_id id st' = (inl service, st') /\
    service !! "_id" = Some (VId fresh) /\
    service !! "averageRating" = Some (VNum 4.5) /\
    service !! "reviews" = Some (VArr []).
Proof.
  intros Hid Hparse. unfold post_services. async.
  unfold servicesCollection.insertOne.
  do 3 (rewrite lookup_insert_ne by done). rewrite Hid.
  destruct (id_accepted (VId fresh) ((.!! "_id") <$> services st)) eqn:Hacc;
    cbn [andb]; [destruct (storable _)|]; intros [= <- <-]; try done.
  intros _. apply accepted_not_found in Hacc.
  eexists. split.
  - unfold get_services_id. async. rewrite Hparse.
    unfold servicesCollection.findOne. cbn.
    rewrite (find_app_last _ _ _ Hacc); [done|].
    unfold has_id. by rewrite lookup_insert_eq, N.eqb_refl.
  - split; [by rewrite lookup_insert_eq|]. split.
    + do 2 (rewrite lookup_insert_ne by done). by rewrite lookup_insert_eq.
    + rewrite lookup_insert_ne by done. by rewrite lookup_insert_eq.
Qed.

Lemma created_service_found_witness :
  exists service,
    get_services_id (H := sample_runtime false) Cases.cleaning_id
      Cases.created.2 = (inl service, Cases.created.2) /\
    service !! "_id" = Some (VId 9) /\
    service !! "averageRating" = Some (VNum 4.5) /\
    service !! "reviews" = Some (VArr []).
Proof.
  apply (created_service_found (H := sample_runtime false) Cases.new_service
           3%Z 9%N Sample.owner (Sample.store [Sample.plumbing] [])
           Cases.created.2 Cases.created.1 Cases.cleaning_id);
    vm_compute; reflexivity.
Defined.

(** ** GET /my-services *)

(** X7: GET /my-services is answered Forbidden exactly when the email of
    the query string is not the email of the token.  Otherwise it answers
    the stored services whose provider email is the email of the token, in
    the order of the collection: a service with a string as provider email
    is answered exactly when that string is the email of the token.  The
    database is unchanged. *)
Theorem my_services_by_token `{Runtime} (query_email : option string)
    (decoded : Claims) (st : Store) :
  (get_my_services query_email decoded st).2 = st /\
  (error_kind (get_my_services query_email decoded st).1 = Some Forbidden
   <-> email decoded <> query_email) /\
  (email decoded = query_email ->
   exists docs,
     (get_my_services query_email decoded st).1 = ok (Documents docs) /\
     docs = List.filter
              (fun d => field_is (email decoded) (d !! "providerEmail"))
              (services st) /\
     forall d e p, d ∈ services st -> email decoded = Some e ->
       d !! "providerEmail" = Some (VStr p) -> (d ∈ docs <-> p = e)).
Proof.
  unfold get_my_services. async. case_bool_decide as Heq; cbn.
  - split; [done|]. split; [by split|]. intros _. subst query_email.
    eexists. split; [done|]. split; [done|].
    intros d e p Hd He Hp.
    rewrite list_elem_of_In, List.filter_In, <- list_elem_of_In, Hp, He. cbn.
    rewrite String.eqb_eq. split; [by intros [_ ->]|by intros ->].
  - split; [done|]. split; [by split|done].
Qed.

(** ** GET /bookings *)

(** What the join of bookings with their services gives: each booking in
    its place with the service it names, or a throw at an identifier that
    is not well formed; it never answers, and reads only. *)
Lemma populate_result `{Runtime} (l : list Booking) (st : Store) :
  (populate_services l st).2 = st /\
  match (populate_services l st).1 with
  | Next res =>
      fst <$> res = l /\
      forall b s, (b, s) ∈ res ->
        match serviceId b with
        | None => s = None
        | Some sid =>
            exists o, new_ObjectId sid = Some o /\
                      s = List.find (has_id o) (services st)
        end
  | Sent _ => False
  | Thrown =>
      exists b sid, b ∈ l /\ serviceId b = Some sid /\ new_ObjectId sid = None
  end.
Proof.
  induction l as [|b l [IHst IH]].
  - split; [done|]. cbn. split; [done|].
    intros b s Hb. by apply elem_of_nil in Hb.
  - cbn [populate_services]. async.
    assert (forall service : option doc,
              match serviceId b with
              | None => service = None
              | Some sid => exists o, new_ObjectId sid = Some o /\
                              service = List.find (has_id o) (services st)
              end ->
              (let (o, st') :=
                 let (o0, st'0) := populate_services l st in
                 match o0 with
                 | Next a => (Next ((b, service) :: a), st'0)
                 | Sent r => (Sent r, st'0)
                 | Thrown => (Thrown, st'0)
                 end in (o, st')).2 = st /\
              match (let (o0, st'0) := populate_services l st in
                     match o0 with
                     | Next a => (Next ((b, service) :: a), st'0)
                     | Sent r => (Sent r, st'0)
                     | Thrown => (Thrown, st'0)
                     end).1 with
              | Next res =>
                  fst <$> res = b :: l /\
                  forall b' s, (b', s) ∈ res ->
                    match serviceId b' with
                    | None => s = None
                    | Some sid =>
                        exists o, new_ObjectId sid = Some o /\
                                  s = List.find (has_id o) (services st)
                    end
              | Sent _ => False
              | Thrown =>
                  exists b' sid, b' ∈ b :: l /\ serviceId b' = Some sid /\
                                 new_ObjectId sid = None
              end) as Hrest.
    { intros service Hservice.
      destruct (populate_services l st) as [[res| |] st1]; cbn in *.
      - split; [done|]. destruct IH as [Hfst Hjoin].
        split; [by rewrite Hfst|].
        intros b' s [[= -> ->]|Hin]%elem_of_cons; [done|by apply Hjoin].
      - done.
      - split; [done|]. destruct IH as (b' & sid & Hin & Hs & Hn).
        exists b', sid. split; [by apply list_elem_of_further|done]. }
    destruct (serviceId b) as [sid|] eqn:Hsid.
    + destruct (new_ObjectId sid) as [o|] eqn:Ho.
      * unfold servicesCollection.findOne.
        destruct (Hrest (List.find (has_id o) (services st))) as [H1 H2];
          [by eauto|].
        split; [|exact H2].
        by destruct (populate_services l st) as [[]].
      * split; [done|]. cbn. exists b, sid.
        split; [apply list_elem_of_here|done].
    + destruct (Hrest None) as [H1 H2]; [done|].
      split; [|exact H2]. by destruct (populate_services l st) as [[]].
Qed.


(** X9: for a caller whose token and query agree, GET /bookings fails
    with Internal exactly when one of the caller's bookings has a service
    identifier that is not well formed; any one such booking hides all the
    others. *)
Theorem my_bookings_fail `{Runtime} (decoded : Claims) (st : Store) :
  (exists r, (get_bookings (email decoded) decoded st).1 = inr r /\
             error_kind r = Some Internal)
  <-> exists b sid, b ∈ bookings st /\ userEmail b = email decoded /\
                    serviceId b = Some sid /\ new_ObjectId sid = None.
Proof.
  unfold get_bookings. async.
  rewrite bool_decide_eq_true_2 by done. cbn. unfold bookingsCollection.find.
  set (mine := List.filter _ (bookings st)).
  assert (forall b, b ∈ mine <-> b ∈ bookings st /\ userEmail b = email decoded)
    as Hmine.
  { intros b. unfold mine.
    by rewrite list_elem_of_In, List.filter_In, <- list_elem_of_In,
      bool_decide_eq_true. }
  destruct (populate_result mine st) as [_ Hres].
  destruct (populate_services mine st) as [[res| |] st1]; cbn in *.
  - destruct Hres as [Hfst Hjoin]. split; [by intros (? & [=] & _)|].
    intros (b & sid & Hb & Hu & Hs & Hn).
    assert (b ∈ fst <$> res) as Hin by (rewrite Hfst; by apply Hmine).
    apply list_elem_of_fmap in Hin as ([b' s] & -> & Hin).
    specialize (Hjoin _ _ Hin). cbn in Hs. rewrite Hs in Hjoin.
    destruct Hjoin as (o & Ho & _). congruence.
  - done.
  - destruct Hres as (b & sid & Hb & Hs & Hn). split; [|by eauto].
    intros _. apply Hmine in Hb as [Hb Hu]. eauto 10.
Qed.

(** ** POST /bookings and DELETE /bookings/:id: the bookings they leave *)

Lemma find_booking_id (o : ObjectId) (l : list Booking) (b : Booking) :
  List.find (booking_has_id o) l = Some b -> b ∈ l /\ b_id b = Some (VId o).
Proof.
  intros Hb. apply find_some_elem in Hb as [Hin Hb]. split; [done|].
  unfold booking_has_id in Hb. destruct (b_id b) as [[]|]; try done.
  by apply N.eqb_eq in Hb as ->.
Qed.

Lemma elem_of_remove_first {A} (p : A -> bool) (l : list A) (x : A) :
  x ∈ remove_first p l -> x ∈ l.
Proof.
  induction l as [|y l IH]; [done|]. cbn. destruct (p y).
  - apply list_elem_of_further.
  - intros [->|Hx]%elem_of_cons; [apply list_elem_of_here|].
    by apply list_elem_of_further, IH.
Qed.

Lemma remove_first_keeps {A} (p : A -> bool) (l : list A) (x : A) :
  x ∈ l -> p x = false -> x ∈ remove_first p l.
Proof.
  induction l as [|y l IH]; [done|]. cbn.
  intros [->|Hx]%elem_of_cons Hp.
  - rewrite Hp. apply list_elem_of_here.
  - destruct (p y); [done|]. by apply list_elem_of_further, IH.
Qed.

Lemma remove_first_length {A} (p : A -> bool) (l : list A) (x : A) :
  List.find p l = Some x -> length (remove_first p l) + 1 = length l.
Proof.
  induction l as [|y l IH]; [done|]. cbn. destruct (p y); [lia|].
  intros Hx. cbn. rewrite <- (IH Hx). lia.
Qed.

Lemma remove_first_filter {A} (p q : A -> bool) (l : list A) :
  length (List.filter q (remove_first p l)) <= length (List.filter q l).
Proof.
  induction l as [|y l IH]; [done|]. cbn.
  destruct (p y); cbn; destruct (q y); cbn; lia.
Qed.

Lemma remove_first_filter_found {A} (p q : A -> bool) (l : list A) (x : A) :
  List.find p l = Some x -> q x = true ->
  length (List.filter q (remove_first p l)) + 1 = length (List.filter q l).
Proof.
  induction l as [|y l IH]; [done|]. cbn. destruct (p y) eqn:Hp.
  - intros [= ->] ->. cbn. lia.
  - intros Hx Hq. specialize (IH Hx Hq). cbn. destruct (q y); cbn; lia.
Qed.


(** X10: a successful DELETE /bookings/:id removes the booking with that
    identifier, which is one of the customer named in the query string,
    and nothing else: every other booking stays, the services are
    unchanged, and the collection has one booking less. *)
Theorem cancel_booking `{Runtime} (id : string) (query_email : option string)
    (decoded : Claims) (st st' : Store) (r : Response) :
  delete_bookings_id id query_email decoded st = (r, st') ->
  statusCode r = 200 ->
  exists (o : ObjectId) (b : Booking),
    new_ObjectId id = Some o /\
    List.find (booking_has_id o) (bookings st) = Some b /\
    userEmail b = query_email /\
    r = ok (DeleteResult 1) /\
    bookings st' = remove_first (booking_has_id o) (bookings st) /\
    length (bookings st') + 1 = length (bookings st) /\
    (forall b', b' ∈ bookings st -> booking_has_id o b' = false ->
       b' ∈ bookings st') /\
    (forall b', b' ∈ bookings st' -> b' ∈ bookings st) /\
    services st' = services st.
Proof.
  unfold delete_bookings_id. async.
  destruct (new_ObjectId id) as [o|]; [|by intros [= <- <-]].
  unfold bookingsCollection.findOne.
  destruct (List.find (booking_has_id o) (bookings st)) as [b|] eqn:Hb;
    cbn [not_customer]; [|by intros [= <- <-]].
  case_bool_decide as Hu; cbn; [|by intros [= <- <-]].
  intros [= <- <-] _. exists o, b. cbn.
  split; [done|]. split; [done|]. split; [done|]. split.
  { do 2 f_equal. clear Hu. induction (bookings st) as [|x l IH]; [done|].
    cbn in *. destruct (booking_has_id o x); [done|]. by apply IH. }
  split; [done|]. split; [by apply (remove_first_length _ _ b)|].
  split; [intros; by apply remove_first_keeps|].
  split; [apply elem_of_remove_first|done].
Qed.

Lemma cancel_booking_witness :
  bookings Cases.cancelled.2
  = [Cases.booked_as 2 "d@x.com" Sample.plumbing_id].
Proof.
  assert (delete_bookings_id (H := sample_runtime false)
            Cases.first_booking_id (Some "c@x.com") Sample.mallory
            Cases.two_bookings
          = (Cases.cancelled.1, Cases.cancelled.2)) as Hrun
    by (vm_compute; reflexivity).
  destruct (cancel_booking _ _ _ _ _ _ Hrun)
    as (o & b & Ho & _ & _ & _ & Hb & _); [vm_compute; reflexivity|].
  assert (o = 1%N) as ->
    by (vm_compute in Ho; injection Ho as <-; reflexivity).
  rewrite Hb. vm_compute. reflexivity.
Defined.

(** X11: DELETE /bookings/:id is answered Forbidden exactly when the
    identifier is well formed and no booking has it, or the booking's
    customer email is not the email of the query string; the decoded token
    is not consulted.  Whenever the answer is not a success the database is
    unchanged. *)
Theorem cancel_by_query_email `{Runtime} (id : string)
    (query_email : option string) (decoded : Claims) (st : Store) :
  (error_kind (delete_bookings_id id query_email decoded st).1 = Some Forbidden
   <-> exists o, new_ObjectId id = Some o /\
         forall b, List.find (booking_has_id o) (bookings st) = Some b ->
                   userEmail b <> query_email) /\
  (forall other, delete_bookings_id id query_email other st
                 = delete_bookings_id id query_email decoded st) /\
  (statusCode (delete_bookings_id id query_email decoded st).1 <> 200 ->
   (delete_bookings_id id query_email decoded st).2 = st).
Proof.
  split; [|split; [done|]].
  - unfold delete_bookings_id. async.
    destruct (new_ObjectId id) as [o|]; cbn;
      [|split; [done|by intros (? & [=] & _)]].
    unfold bookingsCollection.findOne.
    destruct (List.find (booking_has_id o) (bookings st)) as [b|] eqn:Hb;
      cbn [not_customer].
    + case_bool_decide as Hu; cbn.
      * split; [done|]. intros (o' & [= <-] & Hn). by destruct (Hn b).
      * split; [|done]. intros _. exists o. split; [done|].
        intros b0. rewrite Hb. by intros [= <-].
    + cbn. split; [|done]. intros _. exists o. split; [done|].
      intros b0. by rewrite Hb.
  - unfold delete_bookings_id. async.
    destruct (new_ObjectId id) as [o|]; cbn; [|done].
    unfold bookingsCollection.findOne.
    destruct (List.find (booking_has_id o) (bookings st)) as [b|];
      cbn [not_customer]; [|done].
    by case_bool_decide.
Qed.






(** ** The JWT middleware *)

Lemma split_on_space (w rest : string) :
  has_char " " w = false ->
  split_on " " (w +:+ String " " rest) = w :: split_on " " rest.
Proof.
  induction w as [|a w IH]; cbn [has_char].
  - intros _. change (split_on " " (String " " rest) = "" :: split_on " " rest).
    cbn [split_on]. by rewrite Ascii.eqb_refl.
  - intros [Ha Hw]%orb_false_iff.
    change (split_on " " (String a (w +:+ String " " rest))
            = String a w :: split_on " " rest).
    cbn [split_on]. by rewrite Ha, (IH Hw).
Qed.

(** X14: the middleware does not look at the first word of the
    Authorization header: any word before the token serves as well as
    [Bearer], and what follows the token after a space is ignored.  A
    header of one word gives [jwt.verify] an undefined token. *)
Theorem scheme_not_checked `{Runtime} (scheme token rest : string) :
  has_char " " scheme = false -> has_char " " token = false ->
  verifyJWT (Some (scheme +:+ String " " token))
  = verifyJWT (Some ("Bearer " +:+ token)) /\
  verifyJWT (Some (scheme +:+ String " " (token +:+ String " " rest)))
  = verifyJWT (Some ("Bearer " +:+ token)) /\
  (scheme <> EmptyString ->
   verifyJWT (Some scheme)
   = match jwt_verify None with
     | Some decoded => inl decoded
     | None => inr (failure 403 "Forbidden access")
     end).
Proof.
  intros Hs Ht.
  assert (forall s, given (Some (s +:+ String " " token)) = true) as Hg1.
  { intros s. unfold given. by destruct s. }
  assert (forall s u, given (Some (s +:+ String " " u)) = true) as Hg2.
  { intros s u. unfold given. by destruct s. }
  assert (split_on " " token = [token]) as Htok.
  { clear Hs. induction token as [|a t IH]; cbn [split_on]; [done|].
    cbn [has_char] in Ht. apply orb_false_iff in Ht as [Ha Ht].
    by rewrite Ha, (IH Ht). }
  change ("Bearer " +:+ token) with ("Bearer" +:+ String " " token).
  unfold verifyJWT. split; [|split].
  - rewrite (Hg1 scheme), (Hg1 "Bearer"). cbn [negb default from_option id].
    rewrite (split_on_space scheme token Hs).
    rewrite (split_on_space "Bearer" token eq_refl). done.
  - rewrite (Hg2 scheme), (Hg1 "Bearer"). cbn [negb default from_option id].
    rewrite (split_on_space scheme _ Hs), (split_on_space token rest Ht).
    rewrite (split_on_space "Bearer" token eq_refl), Htok. done.
  - intros Hne.
    assert (given (Some scheme) = true) as ->.
    { unfold given. cbn. by destruct scheme. }
    cbn [negb default from_option id].
    assert (split_on " " scheme = [scheme]) as ->; [|done].
    clear Hne. induction scheme as [|a t IH]; cbn [split_on]; [done|].
    cbn [has_char] in Hs. apply orb_false_iff in Hs as [Ha Hs].
    by rewrite Ha, (IH Hs).
Qed.

Lemma scheme_not_checked_witness :
  verifyJWT (H := sample_runtime false) (Some "Token c@x.com")
  = verifyJWT (H := sample_runtime false) (Some "Bearer c@x.com").
Proof.
  exact (proj1 (scheme_not_checked (H := sample_runtime false)
                  "Token" "c@x.com" "" eq_refl eq_refl)).
Defined.

(** X15: a request to a protected route without an Authorization header,
    or with an empty one, is answered Unauthorized, and one whose token
    [jwt.verify] refuses is answered Forbidden; in both cases the handler
    is not run and the database is unchanged. *)
Theorem protected_refused `{Runtime} (authorization : option string)
    (handler : Claims -> Store -> Response * Store) (st : Store) :
  (given authorization = false ->
   protected authorization handler st
   = (failure 401 "Unauthorized access", st)) /\
  (given authorization = true ->
   jwt_verify (split_on " " (default EmptyString authorization) !! 1) = None ->
   protected authorization handler st = (failure 403 "Forbidden access", st)) /\
  (forall r st', protected authorization handler st = (r, st') ->
     (forall decoded, verifyJWT authorization <> inl decoded) ->
     st' = st /\
     (error_kind r = Some Unauthorized \/ error_kind r = Some Forbidden)).
Proof.
  unfold protected, verifyJWT. split; [|split].
  - by intros ->.
  - intros -> Hv. cbn. by rewrite Hv.
  - intros r st'. destruct (given authorization); cbn.
    + destruct (jwt_verify _) as [decoded|].
      * intros _ Hn. by destruct (Hn decoded).
      * intros [= <- <-] _. split; [done|by right].
    + intros [= <- <-] _. split; [done|by left].
Qed.

(** ** What a review request leaves alone *)

Lemma update_first_lookup {A} (p : A -> bool) (f : A -> A) (l : list A)
    (i : nat) (x' : A) :
  update_first p f l !! i = Some x' ->
  exists x, l !! i = Some x /\
            (x' = x \/ (List.find p l = Some x /\ x' = f x)).
Proof.
  revert i. induction l as [|y l IH]; intros i; cbn; [done|].
  destruct (p y) eqn:Hy.
  - destruct i as [|i]; cbn; [intros [= <-]; eauto|eauto].
  - destruct i as [|i]; cbn; [intros [= <-]; eauto|apply IH].
Qed.

Lemma update_first_length {A} (p : A -> bool) (f : A -> A) (l : list A) :
  length (update_first p f l) = length l.
Proof.
  induction l as [|y l IH]; [done|]. cbn. destruct (p y); cbn; by rewrite ?IH.
Qed.

Lemma update_first_twice {A} (p : A -> bool) (x y : A) (l : list A) :
  p x = true ->
  update_first p (fun _ => y) (update_first p (fun _ => x) l)
  = update_first p (fun _ => y) l.
Proof.
  intros Hx. induction l as [|z l IH]; [done|]. cbn.
  destruct (p z) eqn:Hz; cbn; [by rewrite Hx|]. by rewrite Hz, IH.
Qed.

(** X16: whatever its outcome, a review request changes no booking, adds
    and removes no service, and changes no field of a service other than
    [reviews] and [averageRating]; only the service of the request can
    change. *)
Theorem review_frame `{Runtime} (file : SourceFile) (sid : string)
    (payload : doc) (now : Date) (decoded : Claims) (st st' : Store)
    (r : Response) :
  post_services_id_review file sid payload now decoded st = (r, st') ->
  bookings st' = bookings st /\
  length (services st') = length (services st) /\
  forall i d', services st' !! i = Some d' ->
    exists d, services st !! i = Some d /\
      (forall k, k <> "reviews" -> k <> "averageRating" -> d' !! k = d !! k) /\
      (d' <> d ->
       exists o, new_ObjectId sid = Some o /\
                 List.find (has_id o) (services st) = Some d).
Proof.
  intros Hrun.
  apply review_run in Hrun
    as [[-> _]|(o & d & d' & Ho & Hd & _ & Hpush & Hrun)].
  { split; [done|]. split; [done|]. intros i x Hx. exists x.
    split; [done|]. by split. }
  pose proof (push_review_id _ _ _ Hpush) as Hid.
  apply push_review_spec in Hpush as (l & _ & Hd').
  assert (forall k, k <> "reviews" -> d' !! k = d !! k) as Hkeep
    by (intros k Hk; by rewrite Hd', lookup_insert_ne).
  assert (has_id o d' = true) as Hd'id.
  { rewrite (has_id_same o d d' Hid). by apply find_some_elem in Hd as [_ ?]. }
  assert (forall y,
            (forall k, k <> "reviews" -> k <> "averageRating" ->
                       y !! k = d !! k) ->
            forall i x', update_first (has_id o) (fun _ => y) (services st) !! i
                         = Some x' ->
            exists x, services st !! i = Some x /\
              (forall k, k <> "reviews" -> k <> "averageRating" ->
                         x' !! k = x !! k) /\
              (x' <> x ->
               exists o', new_ObjectId sid = Some o' /\
                          List.find (has_id o') (services st) = Some x))
    as Hframe.
  { intros y Hy i x' Hx'.
    apply update_first_lookup in Hx' as (x & Hx & [->|[Hf ->]]).
    { exists x. split; [done|]. by split. }
    rewrite Hd in Hf. injection Hf as <-. exists d. split; [done|].
    split; [done|]. intros _. exists o. by split. }
  destruct Hrun as [[-> _]|(v & avg & _ & _ & _ & ->)]; cbn.
  - split; [done|]. split; [apply update_first_length|].
    apply Hframe. intros k Hk _. by apply Hkeep.
  - rewrite update_first_twice by done.
    split; [done|]. split; [apply update_first_length|].
    apply Hframe. intros k Hk Hk'.
    rewrite lookup_insert_ne by done. by apply Hkeep.
Qed.

Lemma review_frame_witness :
  bookings Sample.index_js_on_document.2 = bookings Sample.booked_store /\
  length (services Sample.index_js_on_document.2) = 1.
Proof.
  assert (post_services_id_review (H := sample_runtime false) IndexJs
            Sample.plumbing_id {[ "rating" := VNum 5 ]} 5%Z Sample.customer
            Sample.booked_store
          = (Sample.index_js_on_document.1, Sample.index_js_on_document.2))
    as Hrun by (vm_compute; reflexivity).
  destruct (review_frame _ _ _ _ _ _ _ _ Hrun) as (Hb & Hl & _).
  split; [exact Hb | exact Hl].
Defined.

(** ** PATCH /services/:id: handing a service over *)

(** X17: the payload of an update may name the provider: after a
    successful update that sets [providerEmail] to another email, the
    former provider is answered Forbidden on the next update of the
    service, and a request that names the new email is not. *)
Theorem patch_hands_over `{Runtime} (id : string) (e e' : string)
    (updateData : doc) (now : Date) (decoded : Claims) (st st' : Store)
    (r : Response) :
  patch_services_id id (Some e) updateData now decoded st = (r, st') ->
  statusCode r = 200 ->
  updateData !! "providerEmail" = Some (VStr e') ->
  e' <> e ->
  forall updateData' now' decoded',
    error_kind (patch_services_id id (Some e) updateData' now' decoded' st').1
    = Some Forbidden /\
    error_kind (patch_services_id id (Some e') updateData' now' decoded' st').1
    <> Some Forbidden.
Proof.
  intros Hrun Hok Hp Hne updateData' now' decoded'.
  rewrite !patch_forbidden_iff.
  revert Hrun Hok. unfold patch_services_id. async.
  destruct (new_ObjectId id) as [o|]; [|by intros [= <- <-]].
  unfold servicesCollection.findOne.
  destruct (List.find (has_id o) (services st)) as [service|] eqn:Hfind;
    cbn [not_owner]; [|by intros [= <- <-]].
  destruct (negb _); [by intros [= <- <-]|].
  unfold servicesCollection.updateOne. rewrite Hfind.
  destruct (set_fields _ service) as [service'|] eqn:Hset;
    [|by intros [= <- <-]].
  intros [= <- <-] _. cbn [services].
  apply set_fields_spec in Hset as (Hid & Hplain & _).
  assert (service' !! "providerEmail" = Some (VStr e')) as Hnew.
  { apply Hplain; [done..|]. by rewrite lookup_insert_ne, lookup_delete_ne. }
  pose proof (find_updated o service service' _ Hfind Hid) as Hfind'.
  split.
  - exists o. split; [done|]. rewrite Hfind'. cbn [not_owner]. rewrite Hnew.
    cbn. by destruct (String.eqb_spec e' e).
  - intros (o' & [= <-] & Hn). rewrite Hfind' in Hn. cbn [not_owner] in Hn.
    rewrite Hnew in Hn. cbn in Hn. by rewrite String.eqb_refl in Hn.
Qed.

Lemma patch_hands_over_witness :
  error_kind
    (patch_services_id (H := sample_runtime false) Sample.plumbing_id
       (Some "p@x.com") Sample.price_update 10%Z Sample.owner
       Cases.handed_over.2).1
  = Some Forbidden.
Proof.
  apply (patch_hands_over (H := sample_runtime false) Sample.plumbing_id
           "p@x.com" "q@x.com" Cases.handover 9%Z Sample.owner
           (Sample.store [Sample.plumbing] []) Cases.handed_over.2
           Cases.handed_over.1).
  - vm_compute. reflexivity.
  - vm_compute. reflexivity.
  - vm_compute. reflexivity.
  - discriminate.
Defined.

(** ** One service for an ObjectId *)

Lemma filter_nil_find {A} (p : A -> bool) (l : list A) :
  List.filter p l = [] <-> List.find p l = None.
Proof.
  induction l as [|x l IH]; [done|]. cbn. destruct (p x); [done|apply IH].
Qed.

Lemma update_first_filter {A} (p q : A -> bool) (x y : A) (l : list A) :
  List.find p l = Some x -> q y = q x ->
  length (List.filter q (update_first p (fun _ => y) l))
  = length (List.filter q l).
Proof.
  intros Hx Hq. induction l as [|z l IH]; [done|]. cbn in *.
  destruct (p z); cbn.
  - injection Hx as ->. rewrite Hq. by destruct (q x).
  - destruct (q z); cbn; by rewrite IH.
Qed.

(** X18: the handlers that write services keep the rule that no two
    services have the same ObjectId: POST /services, PATCH and DELETE
    /services/:id and the review handler, whatever the request and its
    outcome. *)
Theorem oids_kept `{Runtime} (st : Store) :
  oids_distinct (services st) ->
  (forall payload now fresh decoded,
     oids_distinct (services (post_services payload now fresh decoded st).2)) /\
  (forall id email updateData now decoded,
     oids_distinct
       (services (patch_services_id id email updateData now decoded st).2)) /\
  (forall id email decoded,
     oids_distinct (services (delete_services_id id email decoded st).2)) /\
  (forall file sid payload now decoded,
     oids_distinct
       (services (post_services_id_review file sid payload now decoded st).2)).
Proof.
  intros Hone. split; [|split; [|split]].
  - intros payload now fresh decoded. unfold post_services. async.
    unfold servicesCollection.insertOne.
    destruct (id_accepted _ _) eqn:Hacc; cbn [andb]; [|done].
    destruct (storable _); [|done]. cbn.
    intros o. rewrite List.filter_app, length_app. cbn.
    destruct (has_id o _) eqn:Hid; cbn; [|specialize (Hone o); lia].
    unfold has_id in Hid. rewrite lookup_insert_eq in Hid.
    destruct (assigned_id _ _) as [| | | |o'| | |] eqn:Hd; try done.
    apply N.eqb_eq in Hid as <-.
    apply accepted_not_found, filter_nil_find in Hacc. by rewrite Hacc.
  - intros id email updateData now decoded. unfold patch_services_id. async.
    destruct (new_ObjectId id) as [o|]; [|done].
    unfold servicesCollection.findOne.
    destruct (List.find (has_id o) (services st)) as [service|] eqn:Hfind;
      cbn [not_owner]; [|done].
    destruct (negb _); [done|].
    unfold servicesCollection.updateOne. rewrite Hfind.
    destruct (set_fields _ service) as [service'|] eqn:Hset; [|done]. cbn.
    apply set_fields_spec in Hset as (Hid & _).
    intros o'. rewrite (update_first_filter _ _ service); [done..|].
    by apply has_id_same.
  - intros id email decoded. unfold delete_services_id. async.
    destruct (new_ObjectId id) as [o|]; [|done].
    unfold servicesCollection.findOne.
    destruct (not_owner _ _); [done|]. cbn.
    intros o'. etrans; [apply remove_first_filter|apply Hone].
  - intros file sid payload now decoded.
    destruct (post_services_id_review file sid payload now decoded st)
      as [r st'] eqn:Hrun.
    apply review_run in Hrun
      as [[-> _]|(o & d & d' & Ho & Hd & _ & Hpush & Hrun)]; [done|].
    pose proof (push_review_id _ _ _ Hpush) as Hid.
    assert (has_id o d' = true) as Hd'id.
    { rewrite (has_id_same o d d' Hid).
      by apply find_some_elem in Hd as [_ ?]. }
    destruct Hrun as [[-> _]|(v & avg & _ & _ & _ & ->)]; cbn; intros o'.
    + rewrite (update_first_filter _ _ d); [done..|]. by apply has_id_same.
    + rewrite update_first_twice by done.
      rewrite (update_first_filter _ _ d); [done..|]. apply has_id_same.
      by rewrite lookup_insert_ne.
Qed.

Lemma oids_kept_witness : oids_distinct (services Cases.created.2).
Proof.
  apply (proj1 (oids_kept (H := sample_runtime false)
                  (Sample.store [Sample.plumbing] [])
                  ltac:(intros o; cbn; destruct (has_id o _); cbn; lia))
           Cases.new_service 3%Z 9%N Sample.owner).
Defined.

Lemma deleted_gone `{Runtime} (id : string) (email : option string)
    (decoded : Claims) (st st' : Store) (r : Response) :
  oids_distinct (services st) ->
  delete_services_id id email decoded st = (r, st') ->
  statusCode r = 200 ->
  exists o, new_ObjectId id = Some o /\
            List.find (has_id o) (services st') = None.
Proof.
  intros Hone. unfold delete_services_id. async.
  destruct (new_ObjectId id) as [o|] eqn:Ho; [|by intros [= <- <-]].
  unfold servicesCollection.findOne.
  destruct (List.find (has_id o) (services st)) as [service|] eqn:Hfind;
    cbn [not_owner]; [|by intros [= <- <-]].
  destruct (negb _); [by intros [= <- <-]|]. cbn. intros [= <- <-] _.
  exists o. split; [done|]. cbn [services].
  apply filter_nil_find, length_zero_iff_nil.
  pose proof (remove_first_filter_found (has_id o) (has_id o) _ service Hfind)
    as Hcount.
  specialize (Hone o).
  apply find_some_elem in Hfind as [_ Hid]. specialize (Hcount Hid). lia.
Qed.

(** X19: when no two services have the same ObjectId, a service that was
    deleted is not found afterwards: GET /services/:id with the identifier
    of the deletion answers NotFound. *)
Theorem deleted_not_found `{Runtime} (id : string) (email : option string)
    (decoded : Claims) (st st' : Store) (r : Response) :
  oids_distinct (services st) ->
  delete_services_id id email decoded st = (r, st') ->
  statusCode r = 200 ->
  exists r',
    get_services_id id st' = (inr r', st') /\ error_kind r' = Some NotFound.
Proof.
  intros Hone Hrun Hok.
  destruct (deleted_gone id email decoded st st' r Hone Hrun Hok)
    as (o & Ho & Hnone).
  unfold get_services_id. async. rewrite Ho.
  unfold servicesCollection.findOne. rewrite Hnone. by eexists.
Qed.

Lemma deleted_not_found_witness :
  exists r',
    get_services_id (H := sample_runtime false) Sample.plumbing_id
      Sample.deleted.2 = (inr r', Sample.deleted.2) /\
    error_kind r' = Some NotFound.
Proof.
  apply (deleted_not_found (H := sample_runtime false) Sample.plumbing_id
           (Some "p@x.com") Sample.owner
           (Sample.store [Sample.plumbing]
              [Sample.booked 1 "c@x.com" "pending";
               Sample.booked 2 "d@x.com" "cancelled"])
           Sample.deleted.2 Sample.deleted.1).
  - intros o. cbn. destruct (has_id o _); cbn; lia.
  - vm_compute. reflexivity.
  - vm_compute. reflexivity.
Defined.

(** X20: the cascade of DELETE /services/:id goes by the text of the
    identifier.  After a successful deletion the bookings are those whose
    [serviceId] is not the text of the request, in their order; a booking
    that names the deleted service by another text that reads as the same
    ObjectId stays, and then names no service. *)
Theorem cascade_by_text `{Runtime} (id : string) (email : option string)
    (decoded : Claims) (st st' : Store) (r : Response) :
  delete_services_id id email decoded st = (r, st') ->
  statusCode r = 200 ->
  bookings st'
  = List.filter (fun b => negb (bool_decide (serviceId b = Some id)))
      (bookings st) /\
  (forall b, b ∈ bookings st' <-> b ∈ bookings st /\ serviceId b <> Some id) /\
  (forall b id', b ∈ bookings st -> serviceId b = Some id' -> id' <> id ->
     new_ObjectId id' = new_ObjectId id -> oids_distinct (services st) ->
     b ∈ bookings st' /\
     exists o, new_ObjectId id' = Some o /\
               List.find (has_id o) (services st') = None).
Proof.
  intros Hrun Hok.
  destruct (delete_cascade id email decoded st st' r Hrun Hok)
    as (o & Ho & Hb & _).
  assert (forall b, b ∈ bookings st' <->
                    b ∈ bookings st /\ serviceId b <> Some id) as Hin.
  { intros b. rewrite Hb, !list_elem_of_In, List.filter_In, negb_true_iff.
    by rewrite bool_decide_eq_false. }
  split; [done|]. split; [done|].
  intros b id' Hbin Hs Hne Hsame Hone. split.
  - apply Hin. split; [done|]. rewrite Hs. by intros [= ->].
  - destruct (deleted_gone id email decoded st st' r Hone Hrun Hok)
      as (o' & Ho' & Hnone).
    exists o'. by rewrite Hsame.
Qed.

Lemma cascade_by_text_witness :
  Cases.booked_as 1 "c@x.com" Cases.capital_id
    ∈ bookings Cases.deleted_by_text.2 /\
  exists o,
    sample_ObjectId Cases.capital_id = Some o /\
    List.find (has_id o) (services Cases.deleted_by_text.2) = None.
Proof.
  assert (delete_services_id (H := sample_runtime false) Sample.plumbing_id
            (Some "p@x.com") Sample.owner Cases.named_in_capitals
          = (Cases.deleted_by_text.1, Cases.deleted_by_text.2)) as Hrun
    by (vm_compute; reflexivity).
  assert (statusCode Cases.deleted_by_text.1 = 200) as Hok
    by (vm_compute; reflexivity).
  destruct (cascade_by_text _ _ _ _ _ _ Hrun Hok) as (_ & _ & Hstay).
  apply (Hstay (Cases.booked_as 1 "c@x.com" Cases.capital_id)
           Cases.capital_id).
  - apply list_elem_of_here.
  - reflexivity.
  - discriminate.
  - vm_compute. reflexivity.
  - intros o. cbn. destruct (has_id o _); cbn; lia.
Defined.

(** ** Booking, then reviewing *)



(** ** Service identifiers of bookings *)

(** X22: POST /bookings stores only bookings whose service identifier is
    well formed, and the deletions store none: when the identifiers of all
    bookings are well formed they still are after any of these requests,
    and then GET /bookings answers every caller whose token and query
    agree with data. *)
Theorem booking_ids_kept `{Runtime} (st : Store) :
  ids_parse (bookings st) ->
  (forall booking now fresh decoded,
     ids_parse (bookings (post_bookings booking now fresh decoded st).2)) /\
  (forall id query_email decoded,
     ids_parse (bookings (delete_bookings_id id query_email decoded st).2)) /\
  (forall id email decoded,
     ids_parse (bookings (delete_services_id id email decoded st).2)) /\
  (forall decoded,
     exists res, get_bookings (email decoded) decoded st = (inl res, st)).
Proof.
  intros Hparse. split; [|split; [|split]].
  - intros booking now fresh decoded. unfold post_bookings. async.
    destruct (serviceId booking) as [sid|] eqn:Hsid; [|done].
    destruct (new_ObjectId sid) as [o|] eqn:Ho; [|done].
    unfold servicesCollection.findOne.
    destruct (List.find (has_id o) (services st)); [|done].
    destruct (Js.strict_eq _ _); [done|].
    unfold bookingsCollection.findOne.
    destruct (List.find _ (bookings st)); [done|].
    unfold bookingsCollection.insertOne. cbn [b_id].
    destruct (id_accepted _ _ && storable _); [|done]. cbn.
    intros b sid' [Hb|Hb]%elem_of_app; [by apply Hparse|].
    apply list_elem_of_singleton in Hb as ->. cbn. intros [= <-].
    by rewrite Ho.
  - intros id query_email decoded. unfold delete_bookings_id. async.
    destruct (new_ObjectId id) as [o|]; [|done].
    unfold bookingsCollection.findOne.
    destruct (not_customer _ _); [done|]. cbn.
    intros b sid Hb. apply Hparse. by apply elem_of_remove_first in Hb.
  - intros id email decoded. unfold delete_services_id. async.
    destruct (new_ObjectId id) as [o|]; [|done].
    unfold servicesCollection.findOne.
    destruct (not_owner _ _); [done|]. cbn.
    intros b sid Hb. apply Hparse.
    by apply list_elem_of_In, List.filter_In in Hb as [?%list_elem_of_In _].
  - intros decoded. unfold get_bookings. async.
    rewrite bool_decide_eq_true_2 by done. cbn. unfold bookingsCollection.find.
    set (mine := List.filter _ (bookings st)).
    destruct (populate_result mine st) as [Hst Hres].
    destruct (populate_services mine st) as [[res| |] st1]; cbn in *;
      [subst st1; by eauto|done|].
    exfalso. destruct Hres as (b & sid & Hb & Hs & Hn).
    apply list_elem_of_In, List.filter_In in Hb as [Hb%list_elem_of_In _].
    destruct (Hparse b sid Hb Hs) as [o Ho]. congruence.
Qed.

Lemma booking_ids_kept_witness :
  exists res,
    get_bookings (H := sample_runtime false) (Some "c@x.com") Sample.customer
      Sample.booked_store = (inl res, Sample.booked_store).
Proof.
  apply (proj2 (proj2 (proj2
           (booking_ids_kept (H := sample_runtime false) Sample.booked_store
              ltac:(intros b sid ->%list_elem_of_singleton [= <-];
                    vm_compute; eauto))))
           Sample.customer).
Defined.

(** ** Who may change a service *)

(** X23: PATCH and DELETE /services/:id answer Forbidden exactly when the
    identifier is well formed and the service is not there or its provider
    email is not the [email] of the query string; the decoded token plays
    no part in the outcome. *)
Theorem ownership_test `{Runtime} (id : string) (email : option string)
    (st : Store) :
  (forall updateData now decoded,
     error_kind (patch_services_id id email updateData now decoded st).1
       = Some Forbidden
     <-> exists o, new_ObjectId id = Some o /\
           not_owner (List.find (has_id o) (services st)) email = true) /\
  (forall decoded,
     error_kind (delete_services_id id email decoded st).1 = Some Forbidden
     <-> exists o, new_ObjectId id = Some o /\
           not_owner (List.find (has_id o) (services st)) email = true) /\
  (forall updateData now c1 c2,
     patch_services_id id email updateData now c1 st
     = patch_services_id id email updateData now c2 st) /\
  (forall c1 c2,
     delete_services_id id email c1 st = delete_services_id id email c2 st).
Proof.
  split; [|split; [|split]].
  - intros updateData now decoded. apply patch_forbidden_iff.
  - intros decoded. apply delete_forbidden_iff.
  - intros updateData now c1 c2. apply patch_any_token.
  - intros c1 c2. apply delete_any_token.
Qed.

(** ** POST /bookings without a service *)

(** X24: POST /bookings reads the provider email of the service before it
    looks whether the service is there: a request whose service identifier
    is absent or malformed or names no service is answered Internal, and
    nothing is stored. *)
Theorem booking_needs_service `{Runtime} (booking : Booking) (now : Date)
    (fresh : ObjectId) (decoded : Claims) (st : Store) :
  (forall sid o, serviceId booking = Some sid -> new_ObjectId sid = Some o ->
     List.find (has_id o) (services st) = None) ->
  post_bookings booking now fresh decoded st
  = (failure 500 "Failed to create booking", st).
Proof.
  intros Hnone. unfold post_bookings. async.
  destruct (serviceId booking) as [sid|]; [|done].
  destruct (new_ObjectId sid) as [o|] eqn:Ho; [|done].
  unfold servicesCollection.findOne. by rewrite (Hnone sid o).
Qed.

Lemma booking_needs_service_witness :
  post_bookings (H := sample_runtime false) (Sample.request "c@x.com") 7%Z
    99%N Sample.customer (Sample.store [] [])
  = (failure 500 "Failed to create booking", Sample.store [] []).
Proof.
  apply (booking_needs_service (H := sample_runtime false)).
  intros sid o _ _. reflexivity.
Defined.
